(** * MatrixType: a 2-D buffer over host, device or managed storage

    A model of [matrix.h]: the [MatrixType<T>] aggregate, its accessors, the
    factory functions, [copyFrom] and [FreeMatrix], over an explicit memory
    whose blocks live in host, device or managed space.  Every call into the
    allocator or the CUDA runtime is recorded in a trace, so that statements
    about "no allocation" or "how many bytes were transferred" can be made
    about the calls themselves. *)

From Stdlib Require Import ZArith Lia.
From stdpp Require Import base option list strings.

Local Open Scope Z_scope.

(** ** Machine integers

    [int] is a 32-bit two's complement integer, [size_t] a 64-bit unsigned
    one.  Values are carried in [Z]; every arithmetic operation of the source
    is followed by the reduction to the type it is computed in. *)

Definition INT_MAX : Z := 2 ^ 31 - 1.
Definition INT_MIN : Z := - 2 ^ 31.

Definition int_wrap (z : Z) : Z := (z + 2 ^ 31) mod 2 ^ 32 - 2 ^ 31.
Definition int_mul (a b : Z) : Z := int_wrap (a * b).
Definition int_add (a b : Z) : Z := int_wrap (a + b).

Definition to_size_t (z : Z) : Z := z mod 2 ^ 64.
Definition size_t_mul (a b : Z) : Z := (a * b) mod 2 ^ 64.

Definition in_int (z : Z) : Prop := INT_MIN ≤ z ≤ INT_MAX.

(** ** Element types

    The template parameter [T] is a trivially copyable type: all the code
    ever uses of it is [sizeof(T)], and an element is its object
    representation, [sizeof(T)] bytes. *)

Class Pod := {
  sizeofT : Z;
  sizeofT_pos : 0 < sizeofT;
  sizeofT_small : sizeofT < 2 ^ 32
}.

(** ** Memory *)

Inductive space := HostMem | DeviceMem | ManagedMem.

Global Instance space_eq_dec : EqDecision space.
Proof. solve_decision. Defined.

(** A byte of storage is indeterminate until it is written. *)
Definition cell : Type := option Byte.byte.

Record block := { blk_space : space; blk_bytes : list cell }.

(** A pointer is a block (or none) and a byte offset; the null pointer has
    no block and offset 0. *)
Inductive pointer := Addr (base : option nat) (ofs : Z).

Global Instance pointer_eq_dec : EqDecision pointer.
Proof. solve_decision. Defined.

Definition nullptr : pointer := Addr None 0.

(** Calls that reach the allocator or the CUDA runtime. *)
Inductive cudaMemcpyKind :=
  | cudaMemcpyHostToHost
  | cudaMemcpyHostToDevice
  | cudaMemcpyDeviceToHost
  | cudaMemcpyDeviceToDevice.

Inductive call :=
  | CallNew (nbytes : Z)
  | CallCudaMalloc (nbytes : Z)
  | CallCudaMallocManaged (nbytes : Z)
  | CallDelete (p : pointer)
  | CallCudaFree (p : pointer)
  | CallMemcpy (dst src : pointer) (nbytes : Z)
  | CallCudaMemcpy (dst src : pointer) (nbytes : Z) (kind : cudaMemcpyKind).

(** The store: block [b] is [mem !! b]; a released block stays in the list
    as [None], so block numbers are never reused. *)
Record world := { mem : list (option block); trace : list call }.

Definition log (c : call) (w : world) : world :=
  {| mem := mem w; trace := trace w ++ [c] |}.

Definition set_mem (m : list (option block)) (w : world) : world :=
  {| mem := m; trace := trace w |}.

(** ** Outcomes *)

Inductive fault :=
  | IllFormed            (* the function body does not type-check *)
  | BadArrayNewLength    (* new T[n] with n < 0 *)
  | InvalidAccess.       (* access outside a live block of the right space *)

(** A computation ends with a result and a store, or in a fault; a fault
    keeps the calls made up to it. *)
Inductive outcome (A : Type) :=
  | Done (a : A)
  | Fault (f : fault) (made : list call).
Arguments Done {A} a.
Arguments Fault {A} f made.

Definition M (A : Type) : Type := world → outcome (A * world).

Global Instance M_ret : MRet M := λ A a w, Done (a, w).
Global Instance M_bind : MBind M := λ A B f m w,
  match m w with
  | Done (a, w') => f a w'
  | Fault e tr => Fault e tr
  end.

Definition fail {A} (e : fault) : M A := λ w, Fault e (trace w).
Definition emit (c : call) : M unit := λ w, Done (tt, log c w).

Definition calls {A} (o : outcome (A * world)) : list call :=
  match o with
  | Done (_, w) => trace w
  | Fault _ tr => tr
  end.

(** The element type used in the closed examples: a 4-byte type such as
    [float] or [int]. *)
Definition pod4 : Pod :=
  {| sizeofT := 4; sizeofT_pos := eq_refl; sizeofT_small := eq_refl |}.

(** ** The buffer aggregate *)

Inductive MatrixAllocationType := Empty | CPU | GPU | Managed.

Global Instance MatrixAllocationType_eq_dec : EqDecision MatrixAllocationType.
Proof. solve_decision. Defined.

(** ** Unqualified names in a member function body

    A name used in the body of a static member function is looked up among
    the parameters and the locals the body declares, then among the members
    of the class. *)

Inductive entity := LocalObject | DataMember | MemberFunction.

Definition class_members : list (string * entity) :=
  [ ("raw", DataMember); ("col", DataMember); ("row", DataMember);
    ("allocationType", DataMember);
    ("rows", MemberFunction); ("cols", MemberFunction);
    ("size", MemberFunction); ("data", MemberFunction);
    ("cbegin", MemberFunction); ("begin", MemberFunction);
    ("cend", MemberFunction); ("end", MemberFunction);
    ("CreateCPU", MemberFunction); ("CreateGPU", MemberFunction);
    ("CreateManaged", MemberFunction); ("copyFrom", MemberFunction) ]%string.

Definition resolve (locals : list string) (x : string) : option entity :=
  if decide (x ∈ locals) then Some LocalObject
  else (λ r, snd (snd r)) <$> list_find (λ e, fst e = x) class_members.

(** A name used where the body needs a [T*] object (its address taken, its
    value returned) has to resolve to a local. *)
Definition pointer_object (locals : list string) (x : string) : M unit :=
  match resolve locals x with
  | Some LocalObject => mret tt
  | _ => fail IllFormed
  end.

Section Memory.
Context `{Pod}.

(** ** Pointer arithmetic on [T*] *)

Definition ptr_add (p : pointer) (n : Z) : pointer :=
  match p with
  | Addr b o => Addr b (o + sizeofT * n)
  end.

(** [p - q], in elements; defined for pointers into the same block (two
    pointers without block are flat addresses). *)
Definition ptr_diff (p q : pointer) : option Z :=
  match p, q with
  | Addr b o, Addr b' o' =>
      if decide (b = b') then Some ((o - o') / sizeofT) else None
  end.

(** ** Allocation and release

    [operator new[]] and the CUDA runtime are not part of the header; they
    are modelled as a store without bound: an allocation succeeds, and its
    result is the start of a fresh block of indeterminate bytes. *)

Definition fresh_block (sp : space) (nbytes : Z) : block :=
  {| blk_space := sp; blk_bytes := replicate (Z.to_nat nbytes) None |}.

Definition alloc (sp : space) (nbytes : Z) : M pointer := λ w,
  Done (Addr (Some (length (mem w))) 0,
        set_mem (mem w ++ [Some (fresh_block sp nbytes)]) w).

(** [new T[n]]: a negative length is refused; the result is never null. *)
Definition new_array (n : Z) : M pointer :=
  if decide (n < 0) then fail BadArrayNewLength
  else emit (CallNew (sizeofT * n)) ;; alloc HostMem (sizeofT * n).

Definition cudaMalloc (nbytes : Z) : M pointer :=
  emit (CallCudaMalloc nbytes) ;; alloc DeviceMem nbytes.

Definition cudaMallocManaged (nbytes : Z) : M pointer :=
  emit (CallCudaMallocManaged nbytes) ;; alloc ManagedMem nbytes.

(** [cudaMalloc] reports a refused request through the status it returns,
    and then stores nothing through [devPtr].  [grants n w] says whether the
    runtime satisfies a request of [n] bytes in the store [w]; the result is
    what [*devPtr] holds after the call, [devPtr_before] being what it held
    before.  [cudaMalloc] above is the runtime that grants every request. *)
Definition cudaMalloc_into (grants : Z → world → bool) (devPtr_before : pointer)
    (nbytes : Z) : M pointer := λ w,
  if grants nbytes w then cudaMalloc nbytes w
  else Done (devPtr_before, log (CallCudaMalloc nbytes) w).

(** Releasing the null pointer does nothing; any other pointer must be the
    start of a live block of a space the deallocator owns. *)
Definition release (owns : space → bool) (p : pointer) : M unit := λ w,
  match p with
  | Addr None 0 => Done (tt, w)
  | Addr (Some b) 0 =>
      match mem w !! b with
      | Some (Some blk) =>
          if owns (blk_space blk) then Done (tt, set_mem (<[b := None]> (mem w)) w)
          else Fault InvalidAccess (trace w)
      | _ => Fault InvalidAccess (trace w)
      end
  | _ => Fault InvalidAccess (trace w)
  end.

Definition is_host (sp : space) : bool :=
  match sp with HostMem => true | _ => false end.

Definition is_cuda (sp : space) : bool :=
  match sp with HostMem => false | _ => true end.

Definition delete_array (p : pointer) : M unit :=
  emit (CallDelete p) ;; release is_host p.

Definition cudaFree (p : pointer) : M unit :=
  emit (CallCudaFree p) ;; release is_cuda p.

(** ** Reading and writing byte ranges *)

(** Host code can address host and managed storage, device code device and
    managed storage. *)
Definition host_addressable (sp : space) : bool :=
  match sp with DeviceMem => false | _ => true end.

Definition device_addressable (sp : space) : bool :=
  match sp with HostMem => false | _ => true end.

Definition any_space (sp : space) : bool := true.

Definition in_range (o n : Z) (bytes : list cell) : bool :=
  (0 <=? o) && (0 <=? n) && (o + n <=? Z.of_nat (length bytes)).

Definition read_bytes (ok : space → bool) (p : pointer) (n : Z)
    (m : list (option block)) : option (list cell) :=
  match p with
  | Addr (Some b) o =>
      match m !! b with
      | Some (Some blk) =>
          if ok (blk_space blk) && in_range o n (blk_bytes blk)
          then Some (take (Z.to_nat n) (drop (Z.to_nat o) (blk_bytes blk)))
          else None
      | _ => None
      end
  | Addr None _ => None
  end.

Definition splice (o : Z) (bs old : list cell) : list cell :=
  take (Z.to_nat o) old ++ bs ++ drop (Z.to_nat o + length bs) old.

Definition write_bytes (ok : space → bool) (p : pointer) (bs : list cell)
    (m : list (option block)) : option (list (option block)) :=
  match p with
  | Addr (Some b) o =>
      match m !! b with
      | Some (Some blk) =>
          if ok (blk_space blk) && in_range o (Z.of_nat (length bs)) (blk_bytes blk)
          then Some (<[b := Some {| blk_space := blk_space blk;
                                    blk_bytes := splice o bs (blk_bytes blk) |}]> m)
          else None
      | _ => None
      end
  | Addr None _ => None
  end.

(** A transfer of [n] bytes reads the source range, then writes it to the
    destination; both ranges have to lie in live blocks of a space the
    transfer can address. *)
Definition transfer (dst_ok src_ok : space → bool) (dst src : pointer) (n : Z)
    : M unit := λ w,
  match read_bytes src_ok src n (mem w) with
  | Some bs =>
      match write_bytes dst_ok dst bs (mem w) with
      | Some m' => Done (tt, set_mem m' w)
      | None => Fault InvalidAccess (trace w)
      end
  | None => Fault InvalidAccess (trace w)
  end.

Definition memcpy (dst src : pointer) (n : Z) : M unit :=
  emit (CallMemcpy dst src n) ;; transfer host_addressable host_addressable dst src n.

Definition cudaMemcpy (dst src : pointer) (n : Z) (kind : cudaMemcpyKind) : M unit :=
  emit (CallCudaMemcpy dst src n kind) ;;
  match kind with
  | cudaMemcpyHostToHost => transfer host_addressable host_addressable dst src n
  | cudaMemcpyHostToDevice => transfer device_addressable host_addressable dst src n
  | cudaMemcpyDeviceToHost => transfer host_addressable device_addressable dst src n
  | cudaMemcpyDeviceToDevice => transfer device_addressable device_addressable dst src n
  end.

End Memory.

(** ** [struct MatrixType<T>] *)

Module MatrixType.

Record t := {
  raw : pointer;
  col : Z;
  row : Z;
  allocationType : MatrixAllocationType
}.

Section Members.
Context `{Pod}.

Definition rows (this : t) : Z := row this.
Definition cols (this : t) : Z := col this.
Definition size (this : t) : Z := int_mul (row this) (col this).
Definition data (this : t) : pointer := raw this.

(** [operator()] and [operator[]] yield the element [raw[...]] as an
    lvalue; its value is what [load] reads there. *)
Definition operator_call (this : t) (c r : Z) : pointer :=
  ptr_add (raw this) (int_add (int_mul r (col this)) c).

Definition cbegin (this : t) : pointer := raw this.
Definition begin (this : t) : pointer := raw this.
Definition cend (this : t) : pointer := ptr_add (raw this) (int_mul (col this) (row this)).
Definition end_ (this : t) : pointer := ptr_add (raw this) (int_mul (col this) (row this)).

Definition operator_index (this : t) (i : Z) : pointer := ptr_add (raw this) i.

Definition load (p : pointer) (w : world) : option (list cell) :=
  read_bytes any_space p sizeofT (mem w).

Definition CreateCPU (cols rows : Z) : M t :=
  data ← new_array (int_mul rows cols);
  mret {| raw := data; col := cols; row := rows; allocationType := CPU |}.

(** [T* data;] is declared, then written through [&data]. *)
Definition CreateGPU (cols rows : Z) : M t :=
  pointer_object ["cols"; "rows"; "data"]%string "data" ;;
  data ← cudaMalloc (size_t_mul (size_t_mul sizeofT (to_size_t rows)) (to_size_t cols));
  mret {| raw := data; col := cols; row := rows; allocationType := GPU |}.

(** The body declares no [data]: the name is the accessor [data()]. *)
Definition CreateManaged (cols rows : Z) : M t :=
  pointer_object ["cols"; "rows"]%string "data" ;;
  data ← cudaMallocManaged (size_t_mul (size_t_mul sizeofT (to_size_t rows)) (to_size_t cols));
  mret {| raw := data; col := cols; row := rows; allocationType := Managed |}.

(** [CreateGPU] with the runtime's answer spelled out.  [data] is declared
    without initialiser and holds [indeterminate] until [cudaMalloc] stores
    through [&data]; the status [cudaMalloc] returns is dropped, so the
    buffer is returned also when the request was refused. *)
Definition CreateGPU_on (grants : Z → world → bool) (indeterminate : pointer)
    (cols rows : Z) : M t :=
  pointer_object ["cols"; "rows"; "data"]%string "data" ;;
  data ← cudaMalloc_into grants indeterminate
           (size_t_mul (size_t_mul sizeofT (to_size_t rows)) (to_size_t cols));
  mret {| raw := data; col := cols; row := rows; allocationType := GPU |}.

(** Instantiating [CreateManaged]: its body has to be well-formed, whether
    or not a statement of it is ever executed. *)
Definition CreateManaged_instance : M unit :=
  pointer_object ["cols"; "rows"]%string "data".

(** [sizeof(T) * size()], computed in [size_t]. *)
Definition copy_bytes (this : t) : Z := size_t_mul sizeofT (to_size_t (size this)).

(** [copyFrom] writes through [raw]; the members of [this] are not
    assigned, and the function hands [this] back as it is after the call. *)
Definition copyFrom (this other : t) : M t :=
  match allocationType this with
  | CPU =>
      match allocationType other with
      | CPU | Managed => memcpy (raw this) (raw other) (copy_bytes this)
      | GPU => cudaMemcpy (raw this) (raw other) (copy_bytes this) cudaMemcpyDeviceToHost
      | Empty => mret tt
      end
  | GPU =>
      match allocationType other with
      | CPU | Managed => cudaMemcpy (raw this) (raw other) (copy_bytes this) cudaMemcpyHostToDevice
      | GPU => cudaMemcpy (raw this) (raw other) (copy_bytes this) cudaMemcpyDeviceToDevice
      | Empty => mret tt
      end
  | Managed =>
      match allocationType other with
      | CPU | Managed => memcpy (raw this) (raw other) (copy_bytes this)
      | GPU => cudaMemcpy (raw this) (raw other) (copy_bytes this) cudaMemcpyDeviceToHost
      | Empty => mret tt
      end
  | Empty => mret tt
  end ;;
  mret this.

End Members.
End MatrixType.

Import MatrixType (raw, col, row, allocationType).

Section FreeFunctions.
Context `{Pod}.

Definition CreateCPUMatrix (cols rows : Z) : M MatrixType.t :=
  MatrixType.CreateCPU cols rows.

Definition CreateGPUMatrix (cols rows : Z) : M MatrixType.t :=
  MatrixType.CreateGPU cols rows.

Definition CreateManagedMatrix (cols rows : Z) : M MatrixType.t :=
  MatrixType.CreateManaged cols rows.

Definition empty_matrix : MatrixType.t :=
  {| raw := nullptr; col := 0; row := 0; allocationType := Empty |}.

(** The overloads taking [const MatrixType<T>&]. *)
Definition CreateCPUMatrix_from (other : MatrixType.t) : M MatrixType.t :=
  if decide (allocationType other = Empty) then mret empty_matrix
  else
    result ← CreateCPUMatrix (MatrixType.cols other) (MatrixType.rows other);
    result ← MatrixType.copyFrom result other;
    mret result.

Definition CreateGPUMatrix_from (other : MatrixType.t) : M MatrixType.t :=
  if decide (allocationType other = Empty) then mret empty_matrix
  else
    result ← CreateGPUMatrix (MatrixType.cols other) (MatrixType.rows other);
    result ← MatrixType.copyFrom result other;
    mret result.

(** A call of this overload instantiates [CreateManagedMatrix<T>(int, int)]
    and through it [MatrixType<T>::CreateManaged], whichever branch the call
    would take. *)
Definition CreateManagedMatrix_from (other : MatrixType.t) : M MatrixType.t :=
  MatrixType.CreateManaged_instance ;;
  if decide (allocationType other = Empty) then mret empty_matrix
  else
    result ← CreateManagedMatrix (MatrixType.cols other) (MatrixType.rows other);
    result ← MatrixType.copyFrom result other;
    mret result.

(** The device factories with the runtime's answer spelled out. *)
Definition CreateGPUMatrix_on (grants : Z → world → bool) (indeterminate : pointer)
    (cols rows : Z) : M MatrixType.t :=
  MatrixType.CreateGPU_on grants indeterminate cols rows.

Definition CreateGPUMatrix_from_on (grants : Z → world → bool)
    (indeterminate : pointer) (other : MatrixType.t) : M MatrixType.t :=
  if decide (allocationType other = Empty) then mret empty_matrix
  else
    result ← CreateGPUMatrix_on grants indeterminate
               (MatrixType.cols other) (MatrixType.rows other);
    result ← MatrixType.copyFrom result other;
    mret result.

Definition FreeMatrix (mat : MatrixType.t) : M MatrixType.t :=
  match allocationType mat with
  | CPU => delete_array (raw mat)
  | GPU | Managed => cudaFree (raw mat)
  | Empty => mret tt
  end ;;
  let mat := {| raw := nullptr; col := col mat; row := row mat;
                allocationType := allocationType mat |} in
  let mat := {| raw := raw mat; col := col mat; row := row mat;
                allocationType := Empty |} in
  mret mat.

End FreeFunctions.

(** ** Specification vocabulary *)

Section Vocabulary.
Context `{Pod}.

(** The space a buffer of a given kind has its storage in. *)
Definition kind_space (k : MatrixAllocationType) : option space :=
  match k with
  | Empty => None
  | CPU => Some HostMem
  | GPU => Some DeviceMem
  | Managed => Some ManagedMem
  end.

(** Extents are non-negative [int]s whose product is an [int] as well. *)
Definition extents_ok (m : MatrixType.t) : Prop :=
  0 ≤ col m ≤ INT_MAX ∧ 0 ≤ row m ≤ INT_MAX ∧ row m * col m ≤ INT_MAX.

(** [raw] is the start of a live block of the buffer's space that holds at
    least [nbytes] bytes. *)
Definition backed (w : world) (m : MatrixType.t) (nbytes : Z) : Prop :=
  ∃ b blk,
    raw m = Addr (Some b) 0 ∧
    mem w !! b = Some (Some blk) ∧
    kind_space (allocationType m) = Some (blk_space blk) ∧
    nbytes ≤ Z.of_nat (length (blk_bytes blk)).

(** A buffer of the data model: storage for [rows * cols] elements. *)
Definition valid (w : world) (m : MatrixType.t) : Prop :=
  extents_ok m ∧ backed w m (sizeofT * (row m * col m)).

(** The stored elements: the first [size()] elements behind [raw]. *)
Definition contents (m : MatrixType.t) (w : world) : option (list cell) :=
  read_bytes any_space (raw m) (sizeofT * MatrixType.size m) (mem w).

(** The [rows * cols] elements of the data model behind [raw], read
    without going through [size()]. *)
Definition stored (m : MatrixType.t) (w : world) : option (list cell) :=
  read_bytes any_space (raw m) (sizeofT * (row m * col m)) (mem w).

(** The byte count the device factory asks for. *)
Definition device_request (cols rows : Z) : Z :=
  size_t_mul (size_t_mul sizeofT (to_size_t rows)) (to_size_t cols).

(** The value of [m[i]]. *)
Definition element (m : MatrixType.t) (i : Z) (w : world) : option (list cell) :=
  MatrixType.load (MatrixType.operator_index m i) w.

Definition null_iff_empty (m : MatrixType.t) : Prop :=
  allocationType m = Empty ↔ raw m = nullptr.

(** The byte count a transfer call passes, and how many elements that is. *)
Definition copy_count (c : call) : option Z :=
  match c with
  | CallMemcpy _ _ n | CallCudaMemcpy _ _ n _ => Some n
  | _ => None
  end.

Definition copied_elements (c : call) : option Z :=
  (λ n, n / sizeofT) <$> copy_count c.

Definition copy_endpoints (c : call) : option (pointer * pointer) :=
  match c with
  | CallMemcpy d s _ | CallCudaMemcpy d s _ _ => Some (d, s)
  | _ => None
  end.

(** What a factory that works does: a fresh block of the wanted space,
    with room for [rows * cols] elements, at the end of the store. *)
Definition creates (create : Z → Z → M MatrixType.t) (K : MatrixAllocationType)
    (sp : space) : Prop :=
  ∀ cols rows w,
    0 ≤ cols ≤ INT_MAX → 0 ≤ rows ≤ INT_MAX → rows * cols ≤ INT_MAX →
    ∃ c,
      create cols rows w
      = Done ({| raw := Addr (Some (length (mem w))) 0; col := cols; row := rows;
                 allocationType := K |},
              {| mem := mem w ++ [Some (fresh_block sp (sizeofT * (rows * cols)))];
                 trace := trace w ++ [c] |}).

End Vocabulary.

(** ** Closed examples, over a 4-byte element type *)

Definition no_world : world := {| mem := []; trace := [] |}.

Definition bytes_of (l : list Z) : list cell :=
  (λ z, Byte.of_N (Z.to_N z)) <$> l.

(** A 3 x 2 matrix of 4-byte elements 0..5 (little endian). *)
Definition six_elements : list cell :=
  bytes_of [0;0;0;0; 1;0;0;0; 2;0;0;0; 3;0;0;0; 4;0;0;0; 5;0;0;0].

Definition host_world : world :=
  {| mem := [Some {| blk_space := HostMem; blk_bytes := six_elements |}];
     trace := [] |}.

Definition host_3x2 : MatrixType.t :=
  {| raw := Addr (Some 0%nat) 0; col := 3; row := 2; allocationType := CPU |}.

(** A second world with one buffer of each kind, 3 x 2 each, and a
    larger host buffer (4 x 2). *)
Definition blank (n : nat) : list cell := replicate n None.

Definition mixed_world : world :=
  {| mem := [ Some {| blk_space := HostMem; blk_bytes := six_elements |};
              Some {| blk_space := DeviceMem; blk_bytes := blank 24 |};
              Some {| blk_space := ManagedMem; blk_bytes := blank 24 |};
              Some {| blk_space := HostMem;
                      blk_bytes := six_elements ++ bytes_of [6;0;0;0; 7;0;0;0] |} ];
     trace := [] |}.

Definition device_3x2 : MatrixType.t :=
  {| raw := Addr (Some 1%nat) 0; col := 3; row := 2; allocationType := GPU |}.

Definition managed_3x2 : MatrixType.t :=
  {| raw := Addr (Some 2%nat) 0; col := 3; row := 2; allocationType := Managed |}.

Definition host_4x2 : MatrixType.t :=
  {| raw := Addr (Some 3%nat) 0; col := 4; row := 2; allocationType := CPU |}.

(** A store in which the host, device and managed 3 x 2 buffers hold
    different elements: 0..5, 10..15 and 20..25. *)
Definition device_six : list cell :=
  bytes_of [10;0;0;0; 11;0;0;0; 12;0;0;0; 13;0;0;0; 14;0;0;0; 15;0;0;0].

Definition managed_six : list cell :=
  bytes_of [20;0;0;0; 21;0;0;0; 22;0;0;0; 23;0;0;0; 24;0;0;0; 25;0;0;0].

Definition filled_world : world :=
  {| mem := [ Some {| blk_space := HostMem; blk_bytes := six_elements |};
              Some {| blk_space := DeviceMem; blk_bytes := device_six |};
              Some {| blk_space := ManagedMem; blk_bytes := managed_six |} ];
     trace := [] |}.

(** A runtime that refuses every device request. *)
Definition refuses (n : Z) (w : world) : bool := false.

(** A runtime that grants every device request. *)
Definition grants_all (n : Z) (w : world) : bool := true.

(** ** Assignment through an element lvalue *)

Section Lvalues.
Context `{Pod}.

(** The accessors are [__host__ __device__]: they run on either side, and
    the side decides which storage the returned lvalue can be used on. *)
Inductive side := HostSide | DeviceSide.

Definition addressable (s : side) (sp : space) : bool :=
  match s with
  | HostSide => host_addressable sp
  | DeviceSide => device_addressable sp
  end.

(** [m(c, r) = v] and [m[i] = v]: the non-const accessors return [T&], and
    assigning through it writes the [sizeof(T)] bytes of [v] at that
    address, which has to be storage the side can address. *)
Definition assign (s : side) (p : pointer) (v : list cell) (w : world)
    : option world :=
  if decide (Z.of_nat (length v) = sizeofT) then
    match write_bytes (addressable s) p v (mem w) with
    | Some m' => Some (set_mem m' w)
    | None => None
    end
  else None.

(** Reading the element an lvalue denotes, on a side. *)
Definition fetch (s : side) (p : pointer) (w : world) : option (list cell) :=
  read_bytes (addressable s) p sizeofT (mem w).

End Lvalues.

(** ** Proof helpers *)

Ltac run := unfold mbind, M_bind, mret, M_ret, emit, fail; simpl.

Ltac extents_by_computation :=
  unfold extents_ok, INT_MAX; simpl; lia.

Ltac backed_by_computation :=
  eexists _, _; split_and!;
    [reflexivity | reflexivity | reflexivity | apply Z.leb_le; vm_compute; reflexivity].

Ltac valid_by_computation :=
  split; [extents_by_computation | backed_by_computation].

(** * Properties *)

Section Properties.
Context `{Pod}.

Implicit Types (w : world) (m dst src : MatrixType.t) (p : pointer).

(** ** Integer arithmetic *)

Lemma int_wrap_small z : in_int z → int_wrap z = z.
Proof.
  unfold in_int, INT_MIN, INT_MAX, int_wrap. intros Hz.
  rewrite Z.mod_small; lia.
Qed.

Lemma int_mul_comm a b : int_mul a b = int_mul b a.
Proof. unfold int_mul. by rewrite Z.mul_comm. Qed.

(** [begin()] and [end()] span [size()] elements, whatever [raw] is. *)
Lemma end_minus_begin m :
  ptr_diff (MatrixType.end_ m) (MatrixType.begin m) = Some (MatrixType.size m).
Proof.
  unfold MatrixType.end_, MatrixType.begin, MatrixType.size, ptr_diff, ptr_add.
  destruct (raw m) as [b o]. destruct (decide (b = b)); [|done].
  pose proof sizeofT_pos. f_equal. rewrite (int_mul_comm (col m)).
  replace (o + sizeofT * int_mul (row m) (col m) - o)
    with (int_mul (row m) (col m) * sizeofT) by lia.
  apply Z.div_mul. lia.
Qed.

Lemma size_exact m : extents_ok m → MatrixType.size m = row m * col m.
Proof.
  intros (Hc & Hr & Hp). unfold MatrixType.size, int_mul.
  apply int_wrap_small. unfold in_int, INT_MIN, INT_MAX in *. nia.
Qed.

Lemma size_nonneg m : extents_ok m → 0 ≤ MatrixType.size m ≤ INT_MAX.
Proof.
  intros Hm. rewrite (size_exact m Hm). destruct Hm as (Hc & Hr & Hp). nia.
Qed.

Lemma copy_bytes_exact m :
  extents_ok m → MatrixType.copy_bytes m = sizeofT * (row m * col m).
Proof.
  intros Hm. unfold MatrixType.copy_bytes, size_t_mul, to_size_t.
  pose proof (size_nonneg m Hm) as Hs. rewrite (size_exact m Hm) in *.
  pose proof sizeofT_pos. pose proof sizeofT_small.
  unfold INT_MAX in *.
  rewrite (Z.mod_small (row m * col m)) by lia.
  rewrite Z.mod_small; [done|]. nia.
Qed.

Lemma alloc_bytes_exact cols rows :
  0 ≤ cols ≤ INT_MAX → 0 ≤ rows ≤ INT_MAX → rows * cols ≤ INT_MAX →
  size_t_mul (size_t_mul sizeofT (to_size_t rows)) (to_size_t cols)
  = sizeofT * (rows * cols).
Proof.
  intros Hc Hr Hp. unfold size_t_mul, to_size_t.
  pose proof sizeofT_pos. pose proof sizeofT_small. unfold INT_MAX in *.
  rewrite (Z.mod_small rows), (Z.mod_small cols) by lia.
  rewrite (Z.mod_small (sizeofT * rows)) by nia.
  rewrite Z.mod_small; [lia|]. nia.
Qed.


(** ** Reading and writing blocks *)

Lemma in_range_true o n (bytes : list cell) :
  0 ≤ o → 0 ≤ n → o + n ≤ Z.of_nat (length bytes) → in_range o n bytes = true.
Proof.
  intros. unfold in_range.
  repeat (apply andb_true_intro; split); apply Z.leb_le; lia.
Qed.

Lemma read_bytes_base ok b blk n (ms : list (option block)) :
  ms !! b = Some (Some blk) → ok (blk_space blk) = true →
  0 ≤ n ≤ Z.of_nat (length (blk_bytes blk)) →
  read_bytes ok (Addr (Some b) 0) n ms = Some (take (Z.to_nat n) (blk_bytes blk)).
Proof.
  intros Hb Hok Hn. unfold read_bytes. rewrite Hb, Hok.
  rewrite in_range_true by lia. simpl. by rewrite drop_0.
Qed.

Lemma read_bytes_app ok p n (ms ext : list (option block)) bs :
  read_bytes ok p n ms = Some bs → read_bytes ok p n (ms ++ ext) = Some bs.
Proof.
  destruct p as [[b|] o]; simpl; [|done].
  destruct (ms !! b) as [ob|] eqn:Hb; [|done].
  by rewrite (lookup_app_l_Some _ _ _ _ Hb).
Qed.

Lemma read_bytes_insert_ne ok b b' o n x (ms : list (option block)) :
  b ≠ b' →
  read_bytes ok (Addr (Some b) o) n (<[b' := x]> ms) = read_bytes ok (Addr (Some b) o) n ms.
Proof. intros Hne. unfold read_bytes. by rewrite list_lookup_insert_ne. Qed.

Lemma splice_base (bs old : list cell) :
  splice 0 bs old = bs ++ drop (length bs) old.
Proof. unfold splice. by simpl. Qed.

Lemma transfer_base dst_ok src_ok w bd blkd bs blks n :
  mem w !! bd = Some (Some blkd) → mem w !! bs = Some (Some blks) →
  dst_ok (blk_space blkd) = true → src_ok (blk_space blks) = true →
  0 ≤ n → n ≤ Z.of_nat (length (blk_bytes blkd)) →
  n ≤ Z.of_nat (length (blk_bytes blks)) →
  transfer dst_ok src_ok (Addr (Some bd) 0) (Addr (Some bs) 0) n w
  = Done (tt, set_mem (<[bd := Some {| blk_space := blk_space blkd;
                                       blk_bytes := take (Z.to_nat n) (blk_bytes blks)
                                                    ++ drop (Z.to_nat n) (blk_bytes blkd) |}]>
                         (mem w)) w).
Proof.
  intros Hd Hs Hdok Hsok Hn Hnd Hns. unfold transfer.
  rewrite (read_bytes_base src_ok bs blks n (mem w) Hs Hsok) by lia.
  unfold write_bytes. rewrite Hd, Hdok.
  assert (length (take (Z.to_nat n) (blk_bytes blks)) = Z.to_nat n) as Hlen
    by (rewrite length_take; lia).
  rewrite Hlen, in_range_true by lia. simpl.
  by rewrite splice_base, Hlen.
Qed.


(** ** [copyFrom] on backed buffers *)

Lemma copied_elements_exact n : 0 ≤ n → (sizeofT * n) / sizeofT = n.
Proof.
  intros _. pose proof sizeofT_pos. rewrite Z.mul_comm. apply Z.div_mul. lia.
Qed.

Lemma copyFrom_spec w dst src bd blkd bs blks :
  extents_ok dst →
  raw dst = Addr (Some bd) 0 → mem w !! bd = Some (Some blkd) →
  kind_space (allocationType dst) = Some (blk_space blkd) →
  sizeofT * (row dst * col dst) ≤ Z.of_nat (length (blk_bytes blkd)) →
  raw src = Addr (Some bs) 0 → mem w !! bs = Some (Some blks) →
  kind_space (allocationType src) = Some (blk_space blks) →
  sizeofT * (row dst * col dst) ≤ Z.of_nat (length (blk_bytes blks)) →
  ∃ c,
    MatrixType.copyFrom dst src w
    = Done (dst,
            {| mem := <[bd := Some {| blk_space := blk_space blkd;
                                      blk_bytes :=
                                        take (Z.to_nat (sizeofT * (row dst * col dst)))
                                             (blk_bytes blks)
                                        ++ drop (Z.to_nat (sizeofT * (row dst * col dst)))
                                                (blk_bytes blkd) |}]> (mem w);
               trace := trace w ++ [c] |}) ∧
    copy_endpoints c = Some (raw dst, raw src) ∧
    copied_elements c = Some (MatrixType.size dst).
Proof.
  intros Hext Hrd Hd Hkd Hld Hrs Hs Hks Hls.
  pose proof (size_nonneg dst Hext) as Hsz.
  pose proof (size_exact dst Hext) as Hse.
  pose proof (copy_bytes_exact dst Hext) as Hcb.
  pose proof sizeofT_pos as Hpos.
  assert (0 ≤ sizeofT * (row dst * col dst)) as Hn by (rewrite <- Hse; nia).
  unfold MatrixType.copyFrom. rewrite Hcb, Hrd, Hrs.
  destruct (allocationType dst), (allocationType src);
    simpl in Hkd, Hks; try discriminate;
    injection Hkd as Hkd; injection Hks as Hks;
    unfold memcpy, cudaMemcpy; run;
    match goal with
    | |- context [transfer ?a ?b _ _ _ ?w'] =>
        rewrite (transfer_base a b w' bd blkd bs blks) by
          (simpl; first [done | by rewrite <- Hkd | by rewrite <- Hks | lia])
    end;
    (eexists; split; [reflexivity|]; split; [reflexivity|]);
    unfold copied_elements; simpl; rewrite Hse; f_equal;
    apply copied_elements_exact; lia.
Qed.

(** ** Elements and contents *)

Lemma element_of_contents m w bs i :
  contents m w = Some bs → 0 ≤ i < MatrixType.size m →
  element m i w
  = Some (take (Z.to_nat sizeofT) (drop (Z.to_nat (sizeofT * i)) bs)).
Proof.
  unfold contents, element, MatrixType.load, MatrixType.operator_index.
  pose proof sizeofT_pos as Hpos.
  destruct (raw m) as [[b|] o]; simpl; [|done].
  destruct (mem w !! b) as [[blk|]|]; [|done..].
  unfold in_range.
  destruct (0 <=? o) eqn:Ho; [|done].
  destruct (0 <=? sizeofT * MatrixType.size m) eqn:Hn; [|done].
  destruct (o + sizeofT * MatrixType.size m <=? Z.of_nat (length (blk_bytes blk))) eqn:Hl;
    [|done].
  simpl. intros [= <-] Hi.
  apply Z.leb_le in Ho, Hn, Hl.
  assert ((0 <=? o + sizeofT * i) = true) as -> by (apply Z.leb_le; nia).
  assert ((0 <=? sizeofT) = true) as -> by (apply Z.leb_le; lia).
  assert ((o + sizeofT * i + sizeofT <=? Z.of_nat (length (blk_bytes blk))) = true)
    as -> by (apply Z.leb_le; nia).
  simpl. f_equal.
  rewrite !take_drop_commute, take_take, drop_drop.
  f_equal; [lia|]. f_equal. nia.
Qed.

Lemma contents_valid w m :
  valid w m →
  ∃ b blk, raw m = Addr (Some b) 0 ∧ mem w !! b = Some (Some blk) ∧
    contents m w = Some (take (Z.to_nat (sizeofT * (row m * col m))) (blk_bytes blk)).
Proof.
  intros (Hext & b & blk & Hr & Hb & Hk & Hl).
  exists b, blk. split_and!; [done..|].
  unfold contents. rewrite Hr, (size_exact m Hext).
  pose proof (size_nonneg m Hext) as Hs. rewrite (size_exact m Hext) in Hs.
  pose proof sizeofT_pos.
  apply read_bytes_base; [done..|nia].
Qed.

(** ** Validity is kept by allocation and by writes of the same length *)

Lemma backed_app w m n ext tr :
  backed w m n → backed {| mem := mem w ++ ext; trace := tr |} m n.
Proof.
  intros (b & blk & Hr & Hb & Hk & Hl). exists b, blk. simpl.
  split_and!; [done| |done..]. by apply lookup_app_l_Some.
Qed.

Lemma backed_insert w m n bd blkd bytes tr :
  backed w m n → mem w !! bd = Some (Some blkd) →
  length bytes = length (blk_bytes blkd) →
  backed {| mem := <[bd := Some {| blk_space := blk_space blkd; blk_bytes := bytes |}]> (mem w);
            trace := tr |} m n.
Proof.
  intros (b & blk & Hr & Hb & Hk & Hl) Hd Hlen.
  destruct (decide (bd = b)) as [->|Hne].
  - rewrite Hd in Hb. injection Hb as <-.
    exists b, {| blk_space := blk_space blkd; blk_bytes := bytes |}.
    simpl. split_and!; [done| |done|lia].
    apply list_lookup_insert_eq. by eapply lookup_lt_Some.
  - exists b, blk. simpl. split_and!; [done| |done..].
    by rewrite list_lookup_insert_ne.
Qed.

Lemma copied_length n (bs bd : list cell) :
  (n ≤ length bs)%nat → (n ≤ length bd)%nat →
  length (take n bs ++ drop n bd) = length bd.
Proof. intros. rewrite length_app, length_take, length_drop. lia. Qed.

(** ** Copy between equally sized buffers *)

Lemma copyFrom_backed w dst src :
  valid w dst → backed w src (sizeofT * (row dst * col dst)) →
  ∃ w' bs,
    MatrixType.copyFrom dst src w = Done (dst, w') ∧
    read_bytes any_space (raw src) (sizeofT * MatrixType.size dst) (mem w) = Some bs ∧
    contents dst w' = Some bs ∧
    (∀ m n, backed w m n → backed w' m n) ∧
    (∀ b o n, raw dst ≠ Addr (Some b) 0 →
       read_bytes any_space (Addr (Some b) o) n (mem w')
       = read_bytes any_space (Addr (Some b) o) n (mem w)).
Proof.
  intros (Hextd & bd & blkd & Hrd & Hbd & Hkd & Hld) (bs & blks & Hrs & Hbs & Hks & Hls).
  pose proof (size_nonneg dst Hextd) as Hnn. rewrite (size_exact dst Hextd) in Hnn.
  pose proof sizeofT_pos as Hpos.
  destruct (copyFrom_spec w dst src bd blkd bs blks) as (c & Hrun & _); [done..|].
  eexists _, _. split; [exact Hrun|].
  rewrite (size_exact dst Hextd). split; [|split; [|split]].
  - rewrite Hrs. apply read_bytes_base; [done..|nia].
  - unfold contents. rewrite Hrd, (size_exact dst Hextd). simpl mem.
    erewrite read_bytes_base; [| apply list_lookup_insert_eq; by eapply lookup_lt_Some
                               | done | simpl ].
    + simpl. f_equal. apply take_app_length'. rewrite length_take. lia.
    + rewrite copied_length; lia.
  - intros m n Hm. apply backed_insert; [done..|]. apply copied_length; lia.
  - intros b o n Hne. simpl mem. apply read_bytes_insert_ne.
    intros ->. by rewrite Hrd in Hne.
Qed.

Lemma copyFrom_valid w dst src :
  valid w dst → valid w src → MatrixType.size dst = MatrixType.size src →
  ∃ w' bs,
    MatrixType.copyFrom dst src w = Done (dst, w') ∧
    contents src w = Some bs ∧ contents dst w' = Some bs ∧
    (∀ m n, backed w m n → backed w' m n) ∧
    (∀ b o n, raw dst ≠ Addr (Some b) 0 →
       read_bytes any_space (Addr (Some b) o) n (mem w')
       = read_bytes any_space (Addr (Some b) o) n (mem w)).
Proof.
  intros Hd Hs Hsz. unfold contents at 1. rewrite <- Hsz.
  apply copyFrom_backed; [done|].
  destruct Hd as (Hextd & _). destruct Hs as (Hexts & Hbs).
  rewrite (size_exact dst Hextd), (size_exact src Hexts) in Hsz. by rewrite Hsz.
Qed.

(** ** The factories *)

Lemma CreateCPU_creates : creates MatrixType.CreateCPU CPU HostMem.
Proof.
  intros cols rows w Hc Hr Hp. unfold MatrixType.CreateCPU, new_array, int_mul.
  rewrite int_wrap_small by (unfold in_int, INT_MIN, INT_MAX in *; nia).
  destruct (decide (rows * cols < 0)) as [Hneg|_]; [nia|].
  unfold alloc. run. by eexists.
Qed.

Lemma CreateGPU_creates : creates MatrixType.CreateGPU GPU DeviceMem.
Proof.
  intros cols rows w Hc Hr Hp. unfold MatrixType.CreateGPU, cudaMalloc, alloc.
  rewrite alloc_bytes_exact by done.
  unfold pointer_object. run. by eexists.
Qed.

Lemma created_valid K sp cols rows w tr :
  kind_space K = Some sp →
  0 ≤ cols ≤ INT_MAX → 0 ≤ rows ≤ INT_MAX → rows * cols ≤ INT_MAX →
  valid {| mem := mem w ++ [Some (fresh_block sp (sizeofT * (rows * cols)))]; trace := tr |}
        {| raw := Addr (Some (length (mem w))) 0; col := cols; row := rows;
           allocationType := K |}.
Proof.
  intros HK Hc Hr Hp. split; [done|].
  exists (length (mem w)), (fresh_block sp (sizeofT * (rows * cols))). simpl.
  split_and!; [done| |done|].
  - by apply list_lookup_middle.
  - rewrite length_replicate. pose proof sizeofT_pos. nia.
Qed.

(** ** Clone with relocation *)

Lemma clone_spec create K sp w src :
  creates create K sp → kind_space K = Some sp → valid w src →
  ∃ m w' bs,
    (result ← create (MatrixType.cols src) (MatrixType.rows src);
     result ← MatrixType.copyFrom result src;
     mret result) w = Done (m, w') ∧
    m = {| raw := Addr (Some (length (mem w))) 0; col := col src; row := row src;
           allocationType := K |} ∧
    valid w' m ∧
    contents src w = Some bs ∧ contents m w' = Some bs ∧
    (∀ m' n, backed w m' n → backed w' m' n) ∧
    (∀ p n bs', read_bytes any_space p n (mem w) = Some bs' →
                read_bytes any_space p n (mem w') = Some bs').
Proof.
  intros Hcreate HK Hsrc.
  pose proof Hsrc as (Hext & Hback). pose proof Hext as (Hc & Hr & Hp).
  destruct (Hcreate (col src) (row src) w Hc Hr Hp) as (c & Hrun).
  set (m := {| raw := Addr (Some (length (mem w))) 0; col := col src; row := row src;
               allocationType := K |}) in *.
  set (w1 := {| mem := mem w ++ [Some (fresh_block sp (sizeofT * (row src * col src)))];
                trace := trace w ++ [c] |}) in *.
  assert (valid w1 m) as Hm by (by apply created_valid).
  assert (valid w1 src) as Hsrc1 by (split; [done|by apply backed_app]).
  destruct (copyFrom_valid w1 m src Hm Hsrc1 eq_refl)
    as (w2 & bs & Hcopy & Hcs & Hcm & Hkeep & Hframe).
  exists m, w2, bs.
  split; [|split; [done|split; [|split; [|split; [done|split]]]]].
  - unfold mbind, M_bind, MatrixType.cols, MatrixType.rows. rewrite Hrun.
    fold (@mbind M _). unfold mbind, M_bind. rewrite Hcopy. reflexivity.
  - destruct Hm as (Hextm & Hbm). split; [done|]. by apply Hkeep.
  - destruct (contents_valid w src Hsrc) as (b & blk & Hrs & Hb & Hcw).
    rewrite Hcw. rewrite <- Hcs. symmetry. unfold contents in *.
    by apply read_bytes_app.
  - intros m' n Hb. apply Hkeep. by apply backed_app.
  - intros [[b|] o] n bs' Hread; [|done].
    rewrite Hframe.
    + by apply read_bytes_app.
    + simpl. intros [= <-]. simpl in Hread.
      by rewrite (lookup_ge_None_2 (mem w) (length (mem w))) in Hread.
Qed.

Lemma elements_of_contents m m' w w' bs :
  contents m w = Some bs → contents m' w' = Some bs →
  MatrixType.size m' = MatrixType.size m →
  ∀ i, 0 ≤ i < MatrixType.size m →
    element m' i w' = element m i w ∧ is_Some (element m i w).
Proof.
  intros Hm Hm' Hsz i Hi.
  rewrite (element_of_contents m w bs i Hm Hi).
  rewrite (element_of_contents m' w' bs i Hm') by (by rewrite Hsz).
  split; [done|by eexists].
Qed.

(** ** The [rows * cols] elements, read without [size()] *)

Lemma read_bytes_length ok p n (ms : list (option block)) bs :
  read_bytes ok p n ms = Some bs → Z.of_nat (length bs) = n.
Proof.
  unfold read_bytes. destruct p as [[b|] o]; [|done].
  destruct (ms !! b) as [[blk|]|]; [|done..].
  destruct (ok (blk_space blk)); [|done]. simpl. unfold in_range.
  destruct (0 <=? o) eqn:Ho; [|done].
  destruct (0 <=? n) eqn:Hn; [|done].
  destruct (o + n <=? Z.of_nat (length (blk_bytes blk))) eqn:Hl; [|done].
  simpl. intros [= <-]. apply Z.leb_le in Ho, Hn, Hl.
  rewrite length_take, length_drop. lia.
Qed.

Lemma stored_contents m w : extents_ok m → stored m w = contents m w.
Proof. intros Hext. unfold stored, contents. by rewrite (size_exact m Hext). Qed.

Lemma stored_length m w bs :
  stored m w = Some bs → Z.of_nat (length bs) = sizeofT * (row m * col m).
Proof. apply read_bytes_length. Qed.

(** ** The claims *)

(** C2. Copy-table completeness: for each of the nine pairs of kinds
    (K1, K2) taken from CPU, GPU and Managed, and buffers [dst] of kind K1
    and [src] of kind K2 of the data model with [dst.size() == src.size()],
    [dst.copyFrom(src)] returns, and afterwards the [rows * cols] elements
    behind [dst.raw] are those behind [src.raw], element by element.  The
    elements are read off the store by the extents, not through [size()]. *)
Theorem copyFrom_reproduces_source K1 K2 w dst src :
  K1 ∈ [CPU; GPU; Managed] → K2 ∈ [CPU; GPU; Managed] →
  allocationType dst = K1 → allocationType src = K2 →
  valid w dst → valid w src →
  MatrixType.size dst = MatrixType.size src →
  ∃ w' bs,
    MatrixType.copyFrom dst src w = Done (dst, w') ∧
    Z.of_nat (length bs) = sizeofT * (row src * col src) ∧
    row dst * col dst = row src * col src ∧
    stored src w = Some bs ∧
    stored dst w' = Some bs ∧
    contents src w = Some bs ∧
    contents dst w' = Some bs ∧
    ∀ i, 0 ≤ i < row src * col src →
      element dst i w' = element src i w ∧ is_Some (element src i w).
Proof.
  intros _ _ _ _ Hd Hs Hsz.
  destruct (copyFrom_valid w dst src Hd Hs Hsz) as (w' & bs & Hrun & Hcs & Hcd & _).
  pose proof Hd as (Hextd & _). pose proof Hs as (Hexts & _).
  exists w', bs.
  assert (stored src w = Some bs) as Hss by (by rewrite stored_contents).
  assert (stored dst w' = Some bs) as Hsd by (by rewrite stored_contents).
  split_and!; try done.
  - by apply (stored_length src w).
  - by rewrite <- (size_exact dst Hextd), <- (size_exact src Hexts).
  - intros i Hi. rewrite <- (size_exact src Hexts) in Hi.
    by apply (elements_of_contents src dst w w' bs).
Qed.

(** C4. Round trip through the device: for a host buffer [h] of the data
    model, whatever its elements, [CreateGPUMatrix(h)] returns a device
    buffer [d], [CreateCPUMatrix(d)] returns a host buffer [h2] with the
    extents of [h], and the [rows * cols] elements behind [h2.raw] are
    those behind [h.raw], element by element; the elements of [h] itself
    are still what they were.  The elements are read off the store by the
    extents, not through [size()]. *)
Theorem device_round_trip w h :
  allocationType h = CPU → valid w h →
  ∃ d w1 h2 w2 bs,
    CreateGPUMatrix_from h w = Done (d, w1) ∧
    CreateCPUMatrix_from d w1 = Done (h2, w2) ∧
    allocationType d = GPU ∧ allocationType h2 = CPU ∧
    col h2 = col h ∧ row h2 = row h ∧
    valid w2 h2 ∧
    Z.of_nat (length bs) = sizeofT * (row h * col h) ∧
    stored h w = Some bs ∧ stored d w1 = Some bs ∧
    stored h2 w2 = Some bs ∧ stored h w2 = Some bs ∧
    contents h w = Some bs ∧ contents h2 w2 = Some bs ∧ contents h w2 = Some bs ∧
    ∀ i, 0 ≤ i < row h * col h →
      element h2 i w2 = element h i w ∧ is_Some (element h i w).
Proof.
  intros Hk Hh.
  destruct (clone_spec MatrixType.CreateGPU GPU DeviceMem w h CreateGPU_creates eq_refl Hh)
    as (d & w1 & bs & Hrun1 & Hdeq & Hd & Hch & Hcd & Hkeep1 & Hold1).
  destruct (clone_spec MatrixType.CreateCPU CPU HostMem w1 d CreateCPU_creates eq_refl Hd)
    as (h2 & w2 & bs' & Hrun2 & Hh2eq & Hh2 & Hcd' & Hch2 & Hkeep2 & Hold2).
  rewrite Hcd in Hcd'. injection Hcd' as <-.
  exists d, w1, h2, w2, bs.
  assert (allocationType d = GPU) as Hkd by (by rewrite Hdeq).
  pose proof Hh as (Hexth & _). pose proof Hd as (Hextd & _).
  pose proof Hh2 as (Hexth2 & _).
  assert (contents h w2 = Some bs) as Hch2' by (unfold contents in *; by apply Hold2, Hold1).
  split_and!.
  - unfold CreateGPUMatrix_from. rewrite Hk.
    destruct (decide (CPU = Empty)); [done|]. exact Hrun1.
  - unfold CreateCPUMatrix_from. rewrite Hkd.
    destruct (decide (GPU = Empty)); [done|]. exact Hrun2.
  - done.
  - by rewrite Hh2eq.
  - by rewrite Hh2eq, Hdeq.
  - by rewrite Hh2eq, Hdeq.
  - done.
  - apply (stored_length h w). by rewrite stored_contents.
  - by rewrite stored_contents.
  - by rewrite stored_contents.
  - by rewrite stored_contents.
  - by rewrite stored_contents.
  - done.
  - done.
  - done.
  - intros i Hi. rewrite <- (size_exact h Hexth) in Hi.
    apply (elements_of_contents h h2 w w2 bs); [done..| |done].
    unfold MatrixType.size. by rewrite Hh2eq, Hdeq.
Qed.

(** C1, as amended.  For a buffer [b] of the data model, whose kind is not
    [Empty], [FreeMatrix(b)] returns and leaves [b] with kind [Empty] and a
    null [raw]; [col] and [row] are not assigned, so [size()], and with it
    [end() - begin()], is what it was before the call. *)
Theorem FreeMatrix_resets_kind_and_pointer w b :
  allocationType b ≠ Empty → valid w b →
  ∃ b' w',
    FreeMatrix b w = Done (b', w') ∧
    allocationType b' = Empty ∧ raw b' = nullptr ∧
    col b' = col b ∧ row b' = row b ∧
    MatrixType.size b' = MatrixType.size b ∧
    ptr_diff (MatrixType.end_ b') (MatrixType.begin b') = Some (MatrixType.size b).
Proof.
  intros _ (Hext & blk_id & blk & Hr & Hb & Hk & Hl).
  pose (b' := {| raw := nullptr; col := col b; row := row b; allocationType := Empty |}).
  assert (∃ w', FreeMatrix b w = Done (b', w')) as (w' & Hrun).
  { unfold FreeMatrix, delete_array, cudaFree, release. rewrite Hr.
    destruct (allocationType b); simpl in Hk; try discriminate;
      injection Hk as Hk; run; rewrite Hb, <- Hk; simpl; by eexists. }
  exists b', w'. split_and!; [done..|].
  exact (end_minus_begin b').
Qed.

(** C3.  [CreateManaged] takes the address of [data] and returns [data],
    but its body, unlike that of [CreateGPU], declares no [data]: the name
    is the member function [data()], the body is ill-formed, and
    [CreateManagedMatrix(cols, rows)] yields no buffer, of any kind or size,
    whatever the extents. *)
Theorem CreateManagedMatrix_ill_formed cols rows w :
  resolve ["cols"; "rows"]%string "data" = Some MemberFunction ∧
  resolve ["cols"; "rows"; "data"]%string "data" = Some LocalObject ∧
  CreateManagedMatrix cols rows w = Fault IllFormed (trace w).
Proof. split_and!; reflexivity. Qed.

(** C5.  For a buffer [b] of kind [Empty], [CreateCPUMatrix(b)] and
    [CreateGPUMatrix(b)] return the empty value (null [raw], zero [col] and
    [row], kind [Empty]), and the store and the trace are as before: nothing
    was allocated or copied.  [CreateManagedMatrix(b)] does not: a call of
    it instantiates [MatrixType<T>::CreateManaged], whose body is
    ill-formed, so it yields no buffer for an [Empty] argument either. *)
Theorem clone_of_empty_except_managed w b :
  allocationType b = Empty →
  CreateCPUMatrix_from b w = Done (empty_matrix, w) ∧
  CreateGPUMatrix_from b w = Done (empty_matrix, w) ∧
  CreateManagedMatrix_from b w = Fault IllFormed (trace w) ∧
  raw empty_matrix = nullptr ∧ col empty_matrix = 0 ∧ row empty_matrix = 0 ∧
  allocationType empty_matrix = Empty.
Proof.
  intros Hb.
  unfold CreateCPUMatrix_from, CreateGPUMatrix_from.
  rewrite Hb. destruct (decide (Empty = Empty)); [|done].
  split_and!; reflexivity.
Qed.

(** C6.  When [dst] or [src] has kind [Empty], [dst.copyFrom(src)] does
    nothing: it returns with [dst] and the whole store as they were, and the
    trace has no new call. *)
Theorem copyFrom_empty_is_noop w dst src :
  allocationType dst = Empty ∨ allocationType src = Empty →
  MatrixType.copyFrom dst src w = Done (dst, w) ∧
  calls (MatrixType.copyFrom dst src w) = trace w.
Proof.
  unfold MatrixType.copyFrom.
  intros [Hk|Hk]; rewrite Hk; [|destruct (allocationType dst)]; by split.
Qed.

Lemma copyFrom_returns_this w dst src dst' w' :
  MatrixType.copyFrom dst src w = Done (dst', w') → dst' = dst.
Proof.
  unfold MatrixType.copyFrom, mbind, M_bind. intros Hrun.
  match type of Hrun with
  | context [match ?o with Done _ => _ | Fault _ _ => _ end] =>
      destruct o as [[[] w'']|]; [|done]
  end.
  by injection Hrun as <- _.
Qed.

(** C7.  [copyFrom] assigns none of the members of the destination: when
    the call returns, [raw], [col], [row] and [allocationType] of [dst] are
    what they were before. *)
Theorem copyFrom_keeps_members w dst src dst' w' :
  MatrixType.copyFrom dst src w = Done (dst', w') →
  allocationType dst' = allocationType dst ∧ row dst' = row dst ∧
  col dst' = col dst ∧ raw dst' = raw dst.
Proof. intros Hrun. by rewrite (copyFrom_returns_this w dst src dst' w' Hrun). Qed.

(** *** The invariant "kind is [Empty] iff [raw] is null" *)

Lemma CreateCPU_result cols rows w m w' :
  MatrixType.CreateCPU cols rows w = Done (m, w') →
  allocationType m = CPU ∧ ∃ b, raw m = Addr (Some b) 0.
Proof.
  unfold MatrixType.CreateCPU, new_array, alloc.
  destruct (decide (int_mul rows cols < 0)); run; [done|].
  intros [= <- _]. eauto.
Qed.

Lemma CreateGPU_result cols rows w m w' :
  MatrixType.CreateGPU cols rows w = Done (m, w') →
  allocationType m = GPU ∧ ∃ b, raw m = Addr (Some b) 0.
Proof.
  unfold MatrixType.CreateGPU, cudaMalloc, alloc, pointer_object. run.
  intros [= <- _]. eauto.
Qed.

Lemma live_null_iff_empty m K :
  K ≠ Empty → (allocationType m = K ∧ ∃ b, raw m = Addr (Some b) 0) →
  null_iff_empty m.
Proof.
  intros HK (Hk & b & Hr). unfold null_iff_empty. rewrite Hk, Hr.
  split; [done|]. by intros [=].
Qed.

Lemma clone_null_iff_empty (create : Z → Z → M MatrixType.t) K other w m w' :
  K ≠ Empty →
  (∀ cols rows w m w', create cols rows w = Done (m, w') →
     allocationType m = K ∧ ∃ b, raw m = Addr (Some b) 0) →
  (if decide (allocationType other = Empty) then mret empty_matrix
   else result ← create (MatrixType.cols other) (MatrixType.rows other);
        result ← MatrixType.copyFrom result other;
        mret result) w = Done (m, w') →
  null_iff_empty m.
Proof.
  intros HK Hcreate.
  destruct (decide (allocationType other = Empty)) as [_|_].
  - intros [= <- _]. by split.
  - unfold mbind at 1, M_bind at 1.
    destruct (create _ _ w) as [[r w1]|] eqn:Hc; [|done].
    unfold mbind at 1, M_bind at 1.
    destruct (MatrixType.copyFrom r other w1) as [[r' w2]|] eqn:Hcopy; [|done].
    intros [= <- _].
    rewrite (copyFrom_returns_this w1 r other r' w2 Hcopy).
    apply (live_null_iff_empty r K HK). by eapply Hcreate.
Qed.

Lemma FreeMatrix_result mat w mat' w' :
  FreeMatrix mat w = Done (mat', w') →
  mat' = {| raw := nullptr; col := col mat; row := row mat; allocationType := Empty |}.
Proof.
  unfold FreeMatrix, mbind, M_bind. intros Hrun.
  match type of Hrun with
  | context [match ?o with Done _ => _ | Fault _ _ => _ end] =>
      destruct o as [[[] w'']|]; [|done]
  end.
  by injection Hrun as <- _.
Qed.

Lemma CreateGPU_on_result grants indeterminate cols rows w :
  ∃ m w',
    MatrixType.CreateGPU_on grants indeterminate cols rows w = Done (m, w') ∧
    allocationType m = GPU ∧ col m = cols ∧ row m = rows ∧
    if grants (device_request cols rows) w
    then ∃ b, raw m = Addr (Some b) 0
    else raw m = indeterminate.
Proof.
  unfold MatrixType.CreateGPU_on, cudaMalloc_into, device_request, pointer_object.
  run. destruct (grants _ w).
  - unfold cudaMalloc, alloc. run. eexists _, _. split; [reflexivity|]. simpl.
    split_and!; eauto.
  - eexists _, _. split; [reflexivity|]. by simpl.
Qed.

Lemma copyFrom_done_returns_this {A} (k : MatrixType.t → M A) dst src w a w' :
  (result ← MatrixType.copyFrom dst src; k result) w = Done (a, w') →
  ∃ w1, MatrixType.copyFrom dst src w = Done (dst, w1) ∧ k dst w1 = Done (a, w').
Proof.
  unfold mbind at 1, M_bind at 1.
  destruct (MatrixType.copyFrom dst src w) as [[r w1]|] eqn:Hcopy; [|done].
  intros Hk. rewrite (copyFrom_returns_this w dst src r w1 Hcopy) in *. eauto.
Qed.

(** C8, as amended.  A buffer has kind [Empty] exactly when its [raw] is
    null
    - when it is returned by [CreateCPUMatrix], from extents or from
      another buffer (and [CreateCPUMatrix(cols, rows)] does return one for
      extents in range);
    - when it is returned by [CreateGPUMatrix], from extents or from another
      buffer, and the runtime granted the request;
    - after [copyFrom], if the destination had the property before;
    - after [FreeMatrix].
    [CreateGPUMatrix(cols, rows)] drops the status of [cudaMalloc]: it
    always returns a buffer of kind [GPU], and when the request was refused
    its [raw] is what the uninitialised [data] held, so the property then
    holds only if that happens not to be null.  With a runtime that grants
    every request this is [CreateGPUMatrix] as modelled elsewhere. *)
Theorem null_iff_empty_invariant :
  (∀ cols rows w m w',
     CreateCPUMatrix cols rows w = Done (m, w') → null_iff_empty m) ∧
  (∀ cols rows w,
     0 ≤ cols ≤ INT_MAX → 0 ≤ rows ≤ INT_MAX → rows * cols ≤ INT_MAX →
     ∃ m w', CreateCPUMatrix cols rows w = Done (m, w')) ∧
  (∀ grants indeterminate cols rows w,
     ∃ m w',
       CreateGPUMatrix_on grants indeterminate cols rows w = Done (m, w') ∧
       allocationType m = GPU ∧
       if grants (device_request cols rows) w
       then raw m ≠ nullptr ∧ null_iff_empty m
       else raw m = indeterminate ∧ (null_iff_empty m ↔ indeterminate ≠ nullptr)) ∧
  (∀ indeterminate cols rows w,
     CreateGPUMatrix_on grants_all indeterminate cols rows w
     = CreateGPUMatrix cols rows w) ∧
  (∀ other w m w',
     CreateCPUMatrix_from other w = Done (m, w') → null_iff_empty m) ∧
  (∀ grants indeterminate other w m w',
     CreateGPUMatrix_from_on grants indeterminate other w = Done (m, w') →
     grants (device_request (MatrixType.cols other) (MatrixType.rows other)) w = true →
     null_iff_empty m) ∧
  (∀ indeterminate other w,
     CreateGPUMatrix_from_on grants_all indeterminate other w
     = CreateGPUMatrix_from other w) ∧
  (∀ dst src w dst' w',
     null_iff_empty dst → MatrixType.copyFrom dst src w = Done (dst', w') →
     null_iff_empty dst') ∧
  (∀ mat w mat' w',
     null_iff_empty mat → FreeMatrix mat w = Done (mat', w') → null_iff_empty mat').
Proof.
  split_and!.
  - intros cols rows w m w' Hrun.
    by apply (live_null_iff_empty m CPU), (CreateCPU_result cols rows w m w').
  - intros cols rows w Hc Hr Hp.
    destruct (CreateCPU_creates cols rows w Hc Hr Hp) as (c & Hrun). eauto.
  - intros grants indeterminate cols rows w.
    destruct (CreateGPU_on_result grants indeterminate cols rows w)
      as (m & w' & Hrun & Hk & _ & _ & Hraw).
    exists m, w'. split; [exact Hrun|]. split; [exact Hk|].
    unfold null_iff_empty. rewrite Hk.
    destruct (grants (device_request cols rows) w).
    + destruct Hraw as (b & ->). split; [done|]. split; [done|]. by intros [=].
    + split; [done|]. rewrite Hraw. split.
      * intros Hiff Hnull. by apply Hiff in Hnull.
      * intros Hne. split; [done|]. intros Hnull. by destruct Hne.
  - reflexivity.
  - intros other w m w'.
    by apply (clone_null_iff_empty MatrixType.CreateCPU CPU), CreateCPU_result.
  - intros grants indeterminate other w m w' Hrun Hgranted.
    unfold CreateGPUMatrix_from_on in Hrun.
    destruct (decide (allocationType other = Empty)) as [_|_].
    { injection Hrun as <- _. by split. }
    unfold mbind at 1, M_bind at 1, CreateGPUMatrix_on in Hrun.
    destruct (CreateGPU_on_result grants indeterminate
                (MatrixType.cols other) (MatrixType.rows other) w)
      as (r & w1 & Hcreate & Hk & _ & _ & Hraw).
    rewrite Hcreate, Hgranted in *.
    destruct (copyFrom_done_returns_this _ r other w1 m w' Hrun) as (w2 & _ & Hret).
    injection Hret as <- _.
    by apply (live_null_iff_empty r GPU).
  - reflexivity.
  - intros dst src w dst' w' Hinv Hrun.
    by rewrite (copyFrom_returns_this w dst src dst' w' Hrun).
  - intros mat w mat' w' _ Hrun.
    rewrite (FreeMatrix_result mat w mat' w' Hrun). by split.
Qed.

(** C9.  For a valid index pair, [buf(c, r)] is the element
    [buf[r * col + c]], the offset being computed in [int] as the source
    does; the two accessors yield the same lvalue and so read the same
    value.  For extents of the data model the [int] offset is the row-major
    offset [r * cols + c] itself, and lies below [size()]. *)
Theorem operator_call_is_row_major m c r :
  0 ≤ c < MatrixType.cols m → 0 ≤ r < MatrixType.rows m →
  MatrixType.operator_call m c r
  = MatrixType.operator_index m (int_add (int_mul r (MatrixType.cols m)) c) ∧
  (∀ w, MatrixType.load (MatrixType.operator_call m c r) w
        = element m (int_add (int_mul r (MatrixType.cols m)) c) w) ∧
  (extents_ok m →
     int_add (int_mul r (MatrixType.cols m)) c = r * MatrixType.cols m + c ∧
     0 ≤ r * MatrixType.cols m + c < MatrixType.size m).
Proof.
  unfold MatrixType.cols, MatrixType.rows. intros Hc Hr.
  split; [reflexivity|]. split; [reflexivity|].
  intros Hext. rewrite (size_exact m Hext). destruct Hext as (Hcol & Hrow & Hp).
  unfold int_add, int_mul. unfold INT_MAX in *.
  rewrite (int_wrap_small (r * col m)) by (unfold in_int, INT_MIN, INT_MAX; nia).
  rewrite int_wrap_small by (unfold in_int, INT_MIN, INT_MAX; nia).
  nia.
Qed.

Lemma calls_transfer dst_ok src_ok p q n w :
  calls (transfer dst_ok src_ok p q n w) = trace w.
Proof.
  unfold transfer.
  destruct (read_bytes src_ok q n (mem w)); [|done].
  by destruct (write_bytes dst_ok p _ (mem w)).
Qed.

Lemma calls_then_ret {A} (k : M unit) (a : A) w :
  calls ((k ;; mret a) w) = calls (k w).
Proof. unfold mbind, M_bind. by destruct (k w) as [[[] w']|]. Qed.

Lemma calls_emit_transfer dst_ok src_ok p q n c w :
  calls ((emit c ;; transfer dst_ok src_ok p q n) w) = trace w ++ [c].
Proof. unfold mbind, M_bind, emit. by rewrite calls_transfer. Qed.

(** C10.  When both kinds select a transfer, [dst.copyFrom(src)] makes
    exactly one call, from [src.raw] to [dst.raw], and the byte count it
    passes is [sizeof(T) * dst.size()]: nothing of [src] but its [raw] and
    its kind enters the call.  For a destination of the data model that is
    [dst.size()] elements; and with a source that holds at least
    [dst.size()] elements, whatever [src.size()] is, the call returns and
    the stored elements of [dst] are the first [dst.size()] elements behind
    [src.raw]. *)
Theorem copyFrom_moves_destination_size w dst src :
  allocationType dst ≠ Empty → allocationType src ≠ Empty →
  (∃ c,
     calls (MatrixType.copyFrom dst src w) = trace w ++ [c] ∧
     copy_endpoints c = Some (raw dst, raw src) ∧
     copy_count c = Some (MatrixType.copy_bytes dst) ∧
     (extents_ok dst → copied_elements c = Some (MatrixType.size dst))) ∧
  (valid w dst → backed w src (sizeofT * MatrixType.size dst) →
   ∃ w' bs,
     MatrixType.copyFrom dst src w = Done (dst, w') ∧
     read_bytes any_space (raw src) (sizeofT * MatrixType.size dst) (mem w) = Some bs ∧
     contents dst w' = Some bs).
Proof.
  intros Hkd Hks. split.
  - unfold MatrixType.copyFrom. rewrite calls_then_ret.
    destruct (allocationType dst), (allocationType src); try done;
      unfold memcpy, cudaMemcpy; rewrite calls_emit_transfer;
      (eexists; split; [reflexivity|]; split; [reflexivity|]; split; [reflexivity|]);
      intros Hext; unfold copied_elements; simpl;
      rewrite (copy_bytes_exact dst Hext), <- (size_exact dst Hext);
      f_equal; apply copied_elements_exact; pose proof (size_nonneg dst Hext); lia.
  - intros Hd Hs. pose proof Hd as (Hext & _). rewrite (size_exact dst Hext) in Hs.
    destruct (copyFrom_backed w dst src Hd Hs) as (w' & bs & Hrun & Hread & Hcd & _).
    by exists w', bs.
Qed.

(** ** Further properties of the accessors *)

Lemma offset_exact m c r :
  extents_ok m → 0 ≤ c < col m → 0 ≤ r < row m →
  int_add (int_mul r (col m)) c = r * col m + c ∧
  0 ≤ r * col m + c < row m * col m.
Proof.
  intros (Hcol & Hrow & Hp) Hc Hr. unfold int_add, int_mul. unfold INT_MAX in *.
  rewrite (int_wrap_small (r * col m)) by (unfold in_int, INT_MIN, INT_MAX; nia).
  rewrite int_wrap_small by (unfold in_int, INT_MIN, INT_MAX; nia).
  nia.
Qed.

Lemma ptr_add_inj p i j : ptr_add p i = ptr_add p j → i = j.
Proof.
  destruct p as [b o]. unfold ptr_add. intros [= Heq].
  pose proof sizeofT_pos. nia.
Qed.

Lemma load_in_bounds w m i :
  valid w m → 0 ≤ i < row m * col m →
  is_Some (MatrixType.load (MatrixType.operator_index m i) w).
Proof.
  intros Hm Hi.
  destruct (contents_valid w m Hm) as (b & blk & Hr & Hb & Hc).
  destruct Hm as (Hext & _).
  rewrite <- (size_exact m Hext) in Hi.
  pose proof (element_of_contents m w _ i Hc Hi) as He.
  unfold element in He. rewrite He. by eexists.
Qed.

(** X1.  Inside a buffer of the data model, valid index pairs address
    storage, and different pairs address different elements. *)
Theorem operator_call_in_bounds_and_injective w m c r c' r' :
  valid w m →
  0 ≤ c < MatrixType.cols m → 0 ≤ r < MatrixType.rows m →
  0 ≤ c' < MatrixType.cols m → 0 ≤ r' < MatrixType.rows m →
  is_Some (MatrixType.load (MatrixType.operator_call m c r) w) ∧
  (MatrixType.operator_call m c r = MatrixType.operator_call m c' r' →
   c = c' ∧ r = r').
Proof.
  unfold MatrixType.cols, MatrixType.rows. intros Hm Hc Hr Hc' Hr'.
  pose proof Hm as (Hext & _).
  destruct (offset_exact m c r Hext Hc Hr) as (Ho & Hb).
  destruct (offset_exact m c' r' Hext Hc' Hr') as (Ho' & Hb').
  unfold MatrixType.operator_call. rewrite Ho, Ho'. split.
  - by apply (load_in_bounds w m).
  - intros Heq. apply ptr_add_inj in Heq.
    assert (r = r') as -> by nia. split; [lia|done].
Qed.

(** X2.  Every linear index below [size()] is the row-major offset of
    exactly the pair (i mod cols, i / cols), which is a valid index pair:
    [m[i]] and [m(i % cols, i / cols)] are the same element. *)
Theorem operator_index_is_operator_call m i :
  extents_ok m → 0 ≤ i < MatrixType.size m →
  0 ≤ i mod MatrixType.cols m < MatrixType.cols m ∧
  0 ≤ i / MatrixType.cols m < MatrixType.rows m ∧
  MatrixType.operator_index m i
  = MatrixType.operator_call m (i mod MatrixType.cols m) (i / MatrixType.cols m).
Proof.
  unfold MatrixType.cols, MatrixType.rows. intros Hext Hi.
  rewrite (size_exact m Hext) in Hi. pose proof Hext as (Hcol & Hrow & Hp).
  assert (0 < col m) as Hpos by nia.
  pose proof (Z.mod_pos_bound i (col m) Hpos) as Hmod.
  assert (0 ≤ i / col m < row m) as Hdiv.
  { split; [apply Z.div_pos; lia|]. apply Z.div_lt_upper_bound; [lia|nia]. }
  split; [done|]. split; [done|].
  unfold MatrixType.operator_index, MatrixType.operator_call.
  destruct (offset_exact m (i mod col m) (i / col m) Hext Hmod Hdiv) as (-> & _).
  f_equal. rewrite (Z.div_mod i (col m)) at 1 by lia. lia.
Qed.

(** X3.  [begin()] and [end()] delimit exactly [size()] elements, for
    every value of the buffer: [end() - begin()] is [size()], [begin()] is
    the address of [m[0]] and [end()] that of [m[size()]]; the const
    versions and [data()] are the same pointers. *)
Theorem begin_end_span_size m :
  ptr_diff (MatrixType.end_ m) (MatrixType.begin m) = Some (MatrixType.size m) ∧
  MatrixType.operator_index m 0 = MatrixType.begin m ∧
  MatrixType.operator_index m (MatrixType.size m) = MatrixType.end_ m ∧
  MatrixType.cend m = MatrixType.end_ m ∧
  MatrixType.cbegin m = MatrixType.data m ∧ MatrixType.begin m = MatrixType.data m.
Proof.
  split; [apply end_minus_begin|]. split_and!; try reflexivity.
  - unfold MatrixType.operator_index, MatrixType.begin, ptr_add.
    destruct (raw m) as [b o]. f_equal. lia.
  - unfold MatrixType.operator_index, MatrixType.end_, MatrixType.size.
    by rewrite (int_mul_comm (col m)).
Qed.

Lemma size_is_int m : in_int (MatrixType.size m).
Proof.
  unfold MatrixType.size, int_mul, in_int, INT_MIN, INT_MAX, int_wrap.
  pose proof (Z.mod_pos_bound (row m * col m + 2 ^ 31) (2 ^ 32)). lia.
Qed.

(** X4.  [size()] is an [int]: it is [rows * cols] exactly when that
    product is representable, and differs from it otherwise. *)
Theorem size_is_product_iff_representable m :
  in_int (MatrixType.size m) ∧
  (MatrixType.size m = row m * col m ↔ in_int (row m * col m)).
Proof.
  split; [apply size_is_int|]. split.
  - intros <-. apply size_is_int.
  - apply int_wrap_small.
Qed.

(** ** Writing through an element lvalue *)

Lemma length_splice o (bs old : list cell) :
  0 ≤ o → o + Z.of_nat (length bs) ≤ Z.of_nat (length old) →
  length (splice o bs old) = length old.
Proof.
  intros Ho Hl. unfold splice.
  rewrite !length_app, length_take, length_drop. lia.
Qed.

Lemma read_splice_same o (bs old : list cell) :
  0 ≤ o → o ≤ Z.of_nat (length old) →
  take (length bs) (drop (Z.to_nat o) (splice o bs old)) = bs.
Proof.
  intros Ho Hl. unfold splice.
  rewrite drop_app_length' by (rewrite length_take; lia).
  by rewrite take_app_length.
Qed.

Lemma read_splice_other o a s (bs old : list cell) :
  0 ≤ o → 0 ≤ a → 0 ≤ s →
  o + Z.of_nat (length bs) ≤ Z.of_nat (length old) →
  a + s ≤ o ∨ o + Z.of_nat (length bs) ≤ a →
  take (Z.to_nat s) (drop (Z.to_nat a) (splice o bs old))
  = take (Z.to_nat s) (drop (Z.to_nat a) old).
Proof.
  intros Ho Ha Hs Hl [Hbefore|Hafter]; unfold splice.
  - rewrite drop_app_le by (rewrite length_take; lia).
    rewrite take_app_le by (rewrite length_drop, length_take; lia).
    rewrite !take_drop_commute, take_take. f_equal. f_equal. lia.
  - rewrite drop_app_ge by (rewrite length_take; lia).
    rewrite drop_app_ge by (rewrite length_take; lia).
    rewrite drop_drop. f_equal. f_equal. rewrite length_take. lia.
Qed.

(** X5.  The non-const accessors give write access where the side they
    run on can address the storage: host code on [CPU] and [Managed]
    buffers, device code on [GPU] and [Managed] buffers.  There, for a
    buffer of the data model and a valid index pair, assigning a value
    through [m(c, r)] succeeds; afterwards [m[r * cols + c]] reads that
    value, each of the other [rows * cols] elements reads as before, [m] is
    still a buffer of the data model, and no runtime call was made.  On the
    other side (host code on a [GPU] buffer, device code on a [CPU] buffer)
    the assignment and the read are invalid accesses. *)
Theorem assign_through_operator_call s sp w m c r v :
  valid w m → kind_space (allocationType m) = Some sp →
  0 ≤ c < MatrixType.cols m → 0 ≤ r < MatrixType.rows m →
  Z.of_nat (length v) = sizeofT →
  (addressable s sp = true →
   ∃ w',
     assign s (MatrixType.operator_call m c r) v w = Some w' ∧
     fetch s (MatrixType.operator_index m (r * MatrixType.cols m + c)) w' = Some v ∧
     (∀ i, 0 ≤ i < row m * col m → i ≠ r * MatrixType.cols m + c →
           fetch s (MatrixType.operator_index m i) w'
           = fetch s (MatrixType.operator_index m i) w ∧
           is_Some (fetch s (MatrixType.operator_index m i) w)) ∧
     valid w' m ∧ trace w' = trace w) ∧
  (addressable s sp = false →
   assign s (MatrixType.operator_call m c r) v w = None ∧
   fetch s (MatrixType.operator_call m c r) w = None).
Proof.
  unfold MatrixType.cols, MatrixType.rows. intros Hm Hsp Hc Hr Hv.
  pose proof Hm as (Hext & b & blk & Hraw & Hb & Hk & Hl).
  rewrite Hsp in Hk. injection Hk as ->.
  destruct (offset_exact m c r Hext Hc Hr) as (Ho & Hbound).
  pose proof sizeofT_pos as Hpos.
  set (k := r * col m + c) in *.
  split; intros Hside.
  - set (bytes := splice (0 + sizeofT * k) v (blk_bytes blk)).
    assert (0 + sizeofT * k + Z.of_nat (length v) ≤ Z.of_nat (length (blk_bytes blk)))
      as Hfit by nia.
    assert (length bytes = length (blk_bytes blk)) as Hlen
      by (apply length_splice; lia).
    assert ((b < length (mem w))%nat) as Hlt by (by eapply lookup_lt_Some).
    set (w' := set_mem (<[b := Some {| blk_space := blk_space blk; blk_bytes := bytes |}]>
                          (mem w)) w).
    assert (mem w' !! b = Some (Some {| blk_space := blk_space blk; blk_bytes := bytes |}))
      as Hb' by (by apply list_lookup_insert_eq).
    assert (∀ w0 blk0 i, mem w0 !! b = Some (Some blk0) →
              blk_space blk0 = blk_space blk →
              sizeofT * (row m * col m) ≤ Z.of_nat (length (blk_bytes blk0)) →
              0 ≤ i < row m * col m →
              fetch s (MatrixType.operator_index m i) w0
              = Some (take (Z.to_nat sizeofT)
                        (drop (Z.to_nat (0 + sizeofT * i)) (blk_bytes blk0)))) as Hread.
    { intros w0 blk0 i Hb0 Hsp0 Hl0 Hi.
      unfold fetch, MatrixType.operator_index.
      rewrite Hraw. unfold ptr_add, read_bytes. rewrite Hb0, Hsp0, Hside.
      rewrite in_range_true; [done|nia|lia|nia]. }
    exists w'. split_and!.
    + unfold assign, MatrixType.operator_call. rewrite Ho, Hraw.
      destruct (decide (Z.of_nat (length v) = sizeofT)); [|done].
      unfold ptr_add, write_bytes. rewrite Hb, Hside.
      rewrite in_range_true; [done|nia|lia|lia].
    + rewrite (Hread w' _ k Hb') by (simpl; lia || done). f_equal. simpl.
      replace (Z.to_nat sizeofT) with (length v) by lia.
      apply read_splice_same; nia.
    + intros i Hi Hne.
      rewrite (Hread w' _ i Hb'), (Hread w _ i Hb) by (simpl; lia || done).
      split; [|by eexists]. f_equal. simpl.
      apply read_splice_other; [nia|nia|lia|lia|]. rewrite Hv.
      destruct (decide (i < k)); [left|right]; nia.
    + split; [done|]. eexists b, _. split_and!; [done|exact Hb'|done|].
      simpl. rewrite Hlen. done.
    + reflexivity.
  - unfold assign, fetch, MatrixType.operator_call. rewrite Ho, Hraw.
    unfold ptr_add, write_bytes, read_bytes. rewrite Hb, Hside.
    by destruct (decide (Z.of_nat (length v) = sizeofT)).
Qed.

(** ** Further properties of the factories *)

Lemma read_fresh_block sp (ms : list (option block)) n :
  0 ≤ n →
  read_bytes any_space (Addr (Some (length ms)) 0) n
    (ms ++ [Some (fresh_block sp n)])
  = Some (replicate (Z.to_nat n) None).
Proof.
  intros Hn.
  rewrite (read_bytes_base any_space (length ms) (fresh_block sp n));
    [|by apply list_lookup_middle|done|simpl; rewrite length_replicate; lia].
  simpl. f_equal. apply take_ge. by rewrite length_replicate.
Qed.

Lemma backed_is_old w m n :
  backed w m n → ∃ b, raw m = Addr (Some b) 0 ∧ (b < length (mem w))%nat.
Proof.
  intros (b & blk & Hr & Hb & _). exists b. split; [done|].
  by eapply lookup_lt_Some.
Qed.

Lemma fresh_buffer_facts K sp cols rows w c :
  kind_space K = Some sp →
  0 ≤ cols ≤ INT_MAX → 0 ≤ rows ≤ INT_MAX → rows * cols ≤ INT_MAX →
  let m := {| raw := Addr (Some (length (mem w))) 0; col := cols; row := rows;
              allocationType := K |} in
  let w' := {| mem := mem w ++ [Some (fresh_block sp (sizeofT * (rows * cols)))];
               trace := trace w ++ [c] |} in
  MatrixType.size m = cols * rows ∧
  valid w' m ∧
  contents m w' = Some (replicate (Z.to_nat (sizeofT * (cols * rows))) None) ∧
  (∀ m' n, backed w m' n → backed w' m' n ∧ raw m' ≠ raw m) ∧
  (∀ p n bs, read_bytes any_space p n (mem w) = Some bs →
             read_bytes any_space p n (mem w') = Some bs).
Proof.
  intros HK Hc Hr Hp m w'.
  assert (extents_ok m) as Hext by done.
  pose proof sizeofT_pos as Hpos.
  split_and!.
  - rewrite (size_exact m Hext). simpl. lia.
  - by apply created_valid.
  - unfold contents. rewrite (size_exact m Hext). simpl.
    rewrite (Z.mul_comm cols rows). apply read_fresh_block. nia.
  - intros m' n Hm'. split; [by apply backed_app|].
    destruct (backed_is_old w m' n Hm') as (b & -> & Hlt). simpl. intros [=]. lia.
  - intros p n bs Hread. simpl. by apply read_bytes_app.
Qed.

(** X6.  For non-negative extents whose product is an [int],
    [CreateCPUMatrix(cols, rows)] makes one [new] of
    [sizeof(T) * rows * cols] bytes and returns a buffer of kind [CPU] with
    these extents and [size() == cols * rows], over fresh host storage whose
    elements are indeterminate; what was in the store before is still there
    and does not share storage with it. *)
Theorem CreateCPUMatrix_allocates cols rows w :
  0 ≤ cols ≤ INT_MAX → 0 ≤ rows ≤ INT_MAX → rows * cols ≤ INT_MAX →
  ∃ m w',
    CreateCPUMatrix cols rows w = Done (m, w') ∧
    allocationType m = CPU ∧ MatrixType.cols m = cols ∧ MatrixType.rows m = rows ∧
    trace w' = trace w ++ [CallNew (sizeofT * (rows * cols))] ∧
    MatrixType.size m = cols * rows ∧
    valid w' m ∧
    contents m w' = Some (replicate (Z.to_nat (sizeofT * (cols * rows))) None) ∧
    (∀ m' n, backed w m' n → backed w' m' n ∧ raw m' ≠ raw m) ∧
    (∀ p n bs, read_bytes any_space p n (mem w) = Some bs →
               read_bytes any_space p n (mem w') = Some bs).
Proof.
  intros Hc Hr Hp.
  eexists _, _. split.
  - unfold CreateCPUMatrix, MatrixType.CreateCPU, new_array, int_mul.
    rewrite int_wrap_small by (unfold in_int, INT_MIN, INT_MAX in *; nia).
    destruct (decide (rows * cols < 0)) as [Hneg|_]; [nia|].
    unfold alloc. run. reflexivity.
  - do 4 (split; [done|]).
    by apply (fresh_buffer_facts CPU HostMem cols rows w).
Qed.

(** X7.  For non-negative extents whose product is an [int],
    [CreateGPUMatrix(cols, rows)] makes one [cudaMalloc] of
    [sizeof(T) * rows * cols] bytes and returns a buffer of kind [GPU] with
    these extents and [size() == cols * rows], over fresh device storage;
    what was in the store before is still there and does not share storage
    with it. *)
Theorem CreateGPUMatrix_allocates cols rows w :
  0 ≤ cols ≤ INT_MAX → 0 ≤ rows ≤ INT_MAX → rows * cols ≤ INT_MAX →
  ∃ m w',
    CreateGPUMatrix cols rows w = Done (m, w') ∧
    allocationType m = GPU ∧ MatrixType.cols m = cols ∧ MatrixType.rows m = rows ∧
    trace w' = trace w ++ [CallCudaMalloc (sizeofT * (rows * cols))] ∧
    MatrixType.size m = cols * rows ∧
    valid w' m ∧
    contents m w' = Some (replicate (Z.to_nat (sizeofT * (cols * rows))) None) ∧
    (∀ m' n, backed w m' n → backed w' m' n ∧ raw m' ≠ raw m) ∧
    (∀ p n bs, read_bytes any_space p n (mem w) = Some bs →
               read_bytes any_space p n (mem w') = Some bs).
Proof.
  intros Hc Hr Hp.
  eexists _, _. split.
  - unfold CreateGPUMatrix, MatrixType.CreateGPU, cudaMalloc, alloc.
    rewrite alloc_bytes_exact by done.
    unfold pointer_object. run. reflexivity.
  - do 4 (split; [done|]).
    by apply (fresh_buffer_facts GPU DeviceMem cols rows w).
Qed.

(** X8.  [CreateCPUMatrix] computes the element count as the [int]
    product [rows * cols]: when that product wraps to a negative value the
    [new] expression is refused and no buffer is returned; otherwise the
    buffer's storage holds exactly [size()] elements, also when the product
    has wrapped. *)
Theorem CreateCPUMatrix_storage_is_size cols rows w :
  (int_mul rows cols < 0 →
   CreateCPUMatrix cols rows w = Fault BadArrayNewLength (trace w)) ∧
  (0 ≤ int_mul rows cols →
   ∃ m w' blk,
     CreateCPUMatrix cols rows w = Done (m, w') ∧
     MatrixType.size m = int_mul rows cols ∧
     raw m = Addr (Some (length (mem w))) 0 ∧
     mem w' !! length (mem w) = Some (Some blk) ∧
     Z.of_nat (length (blk_bytes blk)) = sizeofT * MatrixType.size m).
Proof.
  unfold CreateCPUMatrix, MatrixType.CreateCPU, new_array. split; intros Hn.
  - destruct (decide (int_mul rows cols < 0)); [|lia]. reflexivity.
  - destruct (decide (int_mul rows cols < 0)); [lia|].
    unfold alloc. run. eexists _, _, _. split; [reflexivity|]. simpl.
    split_and!; [done|done|by apply list_lookup_middle|].
    simpl. rewrite length_replicate. pose proof sizeofT_pos.
    unfold MatrixType.size. simpl. nia.
Qed.

(** X9.  [CreateGPUMatrix] computes the byte count in [size_t] but
    [size()] in [int]: for non-negative [int] extents whose product exceeds
    [INT_MAX] (and whose byte count fits [size_t]) the device block has
    room for [rows * cols] elements, while [size()] is the wrapped product,
    smaller than [rows * cols]. *)
Theorem CreateGPUMatrix_size_wraps cols rows w :
  0 ≤ cols ≤ INT_MAX → 0 ≤ rows ≤ INT_MAX →
  INT_MAX < rows * cols → sizeofT * (rows * cols) < 2 ^ 64 →
  ∃ m w' blk,
    CreateGPUMatrix cols rows w = Done (m, w') ∧
    raw m = Addr (Some (length (mem w))) 0 ∧
    mem w' !! length (mem w) = Some (Some blk) ∧
    Z.of_nat (length (blk_bytes blk)) = sizeofT * (rows * cols) ∧
    MatrixType.size m = int_wrap (rows * cols) ∧
    MatrixType.size m < rows * cols.
Proof.
  intros Hc Hr Hover Hfit.
  pose proof sizeofT_pos as Hpos. pose proof sizeofT_small as Hsmall.
  assert (size_t_mul (size_t_mul sizeofT (to_size_t rows)) (to_size_t cols)
          = sizeofT * (rows * cols)) as Hbytes.
  { unfold size_t_mul, to_size_t. unfold INT_MAX in *.
    rewrite (Z.mod_small rows), (Z.mod_small cols) by lia.
    rewrite (Z.mod_small (sizeofT * rows)) by nia.
    rewrite Z.mod_small; [lia|nia]. }
  unfold CreateGPUMatrix, MatrixType.CreateGPU, cudaMalloc, alloc.
  rewrite Hbytes. unfold pointer_object. run.
  eexists _, _, _. split; [reflexivity|]. simpl.
  split_and!; [done|by apply list_lookup_middle| |done|].
  - simpl. rewrite length_replicate. nia.
  - destruct (size_is_int {| raw := nullptr; col := cols; row := rows;
                             allocationType := GPU |}) as [_ Hle].
    unfold MatrixType.size, int_mul in *. simpl in *. unfold in_int in *. lia.
Qed.

(** ** Further properties of the clone overloads *)

Lemma valid_not_empty w m : valid w m → allocationType m ≠ Empty.
Proof. intros (_ & b & blk & _ & _ & Hk & _) HE. by rewrite HE in Hk. Qed.

Lemma clone_is_deep_copy create K sp w src :
  creates create K sp → kind_space K = Some sp → valid w src →
  ∃ m w' bs,
    (result ← create (MatrixType.cols src) (MatrixType.rows src);
     result ← MatrixType.copyFrom result src;
     mret result) w = Done (m, w') ∧
    allocationType m = K ∧ col m = col src ∧ row m = row src ∧
    valid w' m ∧
    contents src w = Some bs ∧ contents m w' = Some bs ∧
    (∀ m', valid w m' →
           valid w' m' ∧ raw m' ≠ raw m ∧ contents m' w' = contents m' w).
Proof.
  intros Hcreate HK Hsrc.
  destruct (clone_spec create K sp w src Hcreate HK Hsrc)
    as (m & w' & bs & Hrun & Hm & Hvalid & Hcs & Hcm & Hkeep & Hold).
  exists m, w', bs. split; [done|].
  split_and!; try done; try (by rewrite Hm).
  intros m' Hm'. pose proof Hm' as (Hext & Hback). split_and!.
  - split; [done|]. by apply Hkeep.
  - destruct (backed_is_old w m' _ Hback) as (b & -> & Hlt).
    rewrite Hm. simpl. intros [=]. lia.
  - destruct (contents_valid w m' Hm') as (b & blk & _ & _ & Hc).
    rewrite Hc. unfold contents in *. by apply Hold.
Qed.

(** X10.  [CreateCPUMatrix(other)] on a buffer of the data model, of any
    kind, returns a host buffer with the extents of [other] whose
    [rows * cols] elements are those of [other], over storage of its own;
    [other] and every other buffer of the store keep their storage and
    their elements. *)
Theorem CreateCPUMatrix_from_is_deep_copy w other :
  valid w other →
  ∃ m w' bs,
    CreateCPUMatrix_from other w = Done (m, w') ∧
    allocationType m = CPU ∧ col m = col other ∧ row m = row other ∧
    valid w' m ∧
    Z.of_nat (length bs) = sizeofT * (row other * col other) ∧
    stored other w = Some bs ∧ stored m w' = Some bs ∧
    contents other w = Some bs ∧ contents m w' = Some bs ∧
    (∀ m', valid w m' →
           valid w' m' ∧ raw m' ≠ raw m ∧ contents m' w' = contents m' w).
Proof.
  intros Hother.
  destruct (clone_is_deep_copy MatrixType.CreateCPU CPU HostMem w other
              CreateCPU_creates eq_refl Hother)
    as (m & w' & bs & Hrun & Hk & Hcol & Hrow & Hm & Hco & Hcm & Hkeep).
  pose proof Hother as (Hexto & _). pose proof Hm as (Hextm & _).
  assert (stored other w = Some bs) as Hso by (by rewrite stored_contents).
  exists m, w', bs. split.
  { unfold CreateCPUMatrix_from.
    destruct (decide (allocationType other = Empty)) as [HE|_]; [|done].
    by destruct (valid_not_empty w other Hother). }
  split_and!; try done.
  - by apply (stored_length other w).
  - by rewrite stored_contents.
Qed.

(** X11.  [CreateGPUMatrix(other)] on a buffer of the data model, of any
    kind, returns a device buffer with the extents of [other] whose
    [rows * cols] elements are those of [other], over storage of its own;
    [other] and every other buffer of the store keep their storage and
    their elements. *)
Theorem CreateGPUMatrix_from_is_deep_copy w other :
  valid w other →
  ∃ m w' bs,
    CreateGPUMatrix_from other w = Done (m, w') ∧
    allocationType m = GPU ∧ col m = col other ∧ row m = row other ∧
    valid w' m ∧
    Z.of_nat (length bs) = sizeofT * (row other * col other) ∧
    stored other w = Some bs ∧ stored m w' = Some bs ∧
    contents other w = Some bs ∧ contents m w' = Some bs ∧
    (∀ m', valid w m' →
           valid w' m' ∧ raw m' ≠ raw m ∧ contents m' w' = contents m' w).
Proof.
  intros Hother.
  destruct (clone_is_deep_copy MatrixType.CreateGPU GPU DeviceMem w other
              CreateGPU_creates eq_refl Hother)
    as (m & w' & bs & Hrun & Hk & Hcol & Hrow & Hm & Hco & Hcm & Hkeep).
  pose proof Hother as (Hexto & _). pose proof Hm as (Hextm & _).
  assert (stored other w = Some bs) as Hso by (by rewrite stored_contents).
  exists m, w', bs. split.
  { unfold CreateGPUMatrix_from.
    destruct (decide (allocationType other = Empty)) as [HE|_]; [|done].
    by destruct (valid_not_empty w other Hother). }
  split_and!; try done.
  - by apply (stored_length other w).
  - by rewrite stored_contents.
Qed.

(** X12.  [CreateManagedMatrix(other)] on a buffer whose kind is not
    [Empty] reaches the ill-formed [CreateManaged]: it returns no buffer,
    and neither allocates nor copies. *)
Theorem CreateManagedMatrix_from_yields_nothing w other :
  allocationType other ≠ Empty →
  CreateManagedMatrix_from other w = Fault IllFormed (trace w).
Proof.
  intros Hk. unfold CreateManagedMatrix_from.
  destruct (decide (allocationType other = Empty)); [done|]. reflexivity.
Qed.

(** ** Further properties of [FreeMatrix] *)

Lemma FreeMatrix_valid w b blk_id blk :
  extents_ok b → raw b = Addr (Some blk_id) 0 → mem w !! blk_id = Some (Some blk) →
  kind_space (allocationType b) = Some (blk_space blk) →
  ∃ c,
    FreeMatrix b w
    = Done ({| raw := nullptr; col := col b; row := row b; allocationType := Empty |},
            {| mem := <[blk_id := None]> (mem w); trace := trace w ++ [c] |}) ∧
    ((c = CallDelete (raw b) ∧ blk_space blk = HostMem) ∨
     (c = CallCudaFree (raw b) ∧ blk_space blk ≠ HostMem)).
Proof.
  intros Hext Hr Hb Hk.
  unfold FreeMatrix, delete_array, cudaFree, release. rewrite Hr.
  destruct (allocationType b); simpl in Hk; try discriminate;
    injection Hk as Hk; run; rewrite Hb, <- Hk; simpl;
    eexists; (split; [reflexivity|]); [left|right|right]; split; congruence.
Qed.

Lemma read_released ok b o n (ms : list (option block)) :
  read_bytes ok (Addr (Some b) o) n (<[b := None]> ms) = None.
Proof.
  unfold read_bytes.
  destruct (decide (b < length ms)%nat) as [Hlt|Hge].
  - by rewrite list_lookup_insert_eq.
  - rewrite list_insert_ge by lia.
    by rewrite (lookup_ge_None_2 ms b) by lia.
Qed.

Lemma transfer_unreadable dst_ok src_ok p q n w :
  read_bytes src_ok q n (mem w) = None →
  transfer dst_ok src_ok p q n w = Fault InvalidAccess (trace w).
Proof. intros Hread. unfold transfer. by rewrite Hread. Qed.

(** X13.  A second [FreeMatrix] on the same buffer value is harmless:
    once [FreeMatrix] has returned, calling it again returns the same
    value and leaves store and trace alone; and on a buffer of kind
    [Empty] the first call already does so. *)
Theorem FreeMatrix_again_is_noop mat w mat' w' :
  FreeMatrix mat w = Done (mat', w') →
  FreeMatrix mat' w' = Done (mat', w') ∧
  (allocationType mat = Empty → w' = w).
Proof.
  intros Hrun. pose proof (FreeMatrix_result mat w mat' w' Hrun) as ->.
  split; [reflexivity|].
  intros HE. unfold FreeMatrix in Hrun. rewrite HE in Hrun.
  by injection Hrun as <-.
Qed.

(** X14.  For a buffer of the data model [FreeMatrix] makes exactly one
    call: [delete[]] on [raw] when the storage is host storage, [cudaFree]
    on [raw] when it is device or managed storage.  It releases that block
    and nothing else: every buffer with other storage is still a buffer of
    the data model with the elements it had. *)
Theorem FreeMatrix_releases_own_storage w b :
  valid w b →
  ∃ b' w' blk_id blk c,
    FreeMatrix b w = Done (b', w') ∧
    raw b = Addr (Some blk_id) 0 ∧ mem w !! blk_id = Some (Some blk) ∧
    mem w' !! blk_id = Some None ∧
    trace w' = trace w ++ [c] ∧
    ((c = CallDelete (raw b) ∧ blk_space blk = HostMem) ∨
     (c = CallCudaFree (raw b) ∧ blk_space blk ≠ HostMem)) ∧
    (∀ m, valid w m → raw m ≠ raw b →
          valid w' m ∧ contents m w' = contents m w).
Proof.
  intros (Hext & blk_id & blk & Hr & Hb & Hk & Hl).
  destruct (FreeMatrix_valid w b blk_id blk Hext Hr Hb Hk) as (c & Hrun & Hc).
  eexists _, _, blk_id, blk, c. split; [exact Hrun|].
  split_and!; try done.
  - simpl. apply list_lookup_insert_eq. by eapply lookup_lt_Some.
  - intros m (Hextm & bm & blkm & Hrm & Hbm & Hkm & Hlm) Hne.
    assert (blk_id ≠ bm) as Hnb by (intros ->; by rewrite Hr, Hrm in Hne).
    split.
    + split; [done|]. exists bm, blkm. simpl.
      split_and!; [done| |done..]. by rewrite list_lookup_insert_ne.
    + unfold contents. rewrite Hrm. simpl mem.
      apply read_bytes_insert_ne. congruence.
Qed.

(** X15.  [FreeMatrix] resets only the value it is given: a copy of the
    buffer value made before the call still holds the old pointer.  After
    the call the elements can no longer be read through the copy, a
    [copyFrom] out of it is an invalid access, and so is a second
    [FreeMatrix] through it. *)
Theorem stale_copy_after_FreeMatrix w b b' w' :
  valid w b → FreeMatrix b w = Done (b', w') →
  contents b w' = None ∧
  (∀ i, element b i w' = None) ∧
  (∃ made, FreeMatrix b w' = Fault InvalidAccess made) ∧
  (∀ dst, allocationType dst ≠ Empty →
          ∃ made, MatrixType.copyFrom dst b w' = Fault InvalidAccess made).
Proof.
  intros (Hext & blk_id & blk & Hr & Hb & Hk & Hl) Hrun.
  destruct (FreeMatrix_valid w b blk_id blk Hext Hr Hb Hk) as (c & Hrun' & _).
  rewrite Hrun' in Hrun. injection Hrun as <- <-.
  assert ((blk_id < length (mem w))%nat) as Hlt by (by eapply lookup_lt_Some).
  split_and!.
  - unfold contents. rewrite Hr. apply read_released.
  - intros i. unfold element, MatrixType.load, MatrixType.operator_index.
    rewrite Hr. apply read_released.
  - unfold FreeMatrix, delete_array, cudaFree, release. rewrite Hr.
    destruct (allocationType b); simpl in Hk; try discriminate; run;
      rewrite list_lookup_insert_eq by done; by eexists.
  - intros dst Hdst. unfold MatrixType.copyFrom, memcpy, cudaMemcpy.
    rewrite Hr.
    destruct (allocationType dst), (allocationType b);
      simpl in Hk; try discriminate; try done;
      unfold mbind, M_bind, emit;
      (rewrite transfer_unreadable; [by eexists|apply read_released]).
Qed.

(** ** Further properties of [copyFrom] *)

Lemma read_bytes_any_none ok p n (ms : list (option block)) :
  read_bytes any_space p n ms = None → read_bytes ok p n ms = None.
Proof.
  unfold read_bytes. destruct p as [[b|] o]; [|done].
  destruct (ms !! b) as [[blk|]|]; [|done..].
  unfold any_space. simpl.
  destruct (in_range o n (blk_bytes blk)); [done|].
  by rewrite andb_false_r.
Qed.

(** X16.  [copyFrom] writes the first [size()] elements of the
    destination's storage and nothing else: the destination stays a buffer
    of the data model, every buffer with other storage keeps its elements,
    and what lies behind the first [size()] elements in the destination's
    own block is as before. *)
Theorem copyFrom_touches_only_destination w dst src :
  valid w dst → backed w src (sizeofT * MatrixType.size dst) →
  ∃ w',
    MatrixType.copyFrom dst src w = Done (dst, w') ∧
    valid w' dst ∧
    (∀ m, valid w m → raw m ≠ raw dst →
          valid w' m ∧ contents m w' = contents m w) ∧
    (∀ bd o n, raw dst = Addr (Some bd) 0 → sizeofT * MatrixType.size dst ≤ o →
               read_bytes any_space (Addr (Some bd) o) n (mem w')
               = read_bytes any_space (Addr (Some bd) o) n (mem w)).
Proof.
  intros Hd Hs. pose proof Hd as (Hext & Hbd). rewrite (size_exact dst Hext) in *.
  destruct Hbd as (bd & blkd & Hrd & Hd' & Hkd & Hld).
  destruct Hs as (bs & blks & Hrs & Hs' & Hks & Hls).
  pose proof (size_nonneg dst Hext) as Hnn. rewrite (size_exact dst Hext) in Hnn.
  pose proof sizeofT_pos as Hpos.
  destruct (copyFrom_spec w dst src bd blkd bs blks) as (c & Hrun & _); [done..|].
  set (n := sizeofT * (row dst * col dst)) in *.
  assert (length (take (Z.to_nat n) (blk_bytes blks) ++ drop (Z.to_nat n) (blk_bytes blkd))
          = length (blk_bytes blkd)) as Hlen by (apply copied_length; lia).
  eexists. split; [exact Hrun|]. split_and!.
  - split; [done|]. apply backed_insert; [|done..]. by exists bd, blkd.
  - intros m Hm Hne. pose proof Hm as (Hextm & Hbm). split.
    + split; [done|]. by apply backed_insert.
    + destruct Hbm as (bm & blkm & Hrm & _). unfold contents. rewrite Hrm. simpl mem.
      apply read_bytes_insert_ne. congruence.
  - intros bd' o k Hraw Ho. rewrite Hrd in Hraw. injection Hraw as <-.
    unfold read_bytes. simpl mem.
    rewrite list_lookup_insert_eq by (by eapply lookup_lt_Some). rewrite Hd'.
    simpl. unfold in_range. rewrite Hlen.
    destruct ((0 <=? o) && (0 <=? k) && (o + k <=? Z.of_nat (length (blk_bytes blkd))));
      [|done].
    f_equal. f_equal.
    rewrite drop_app_ge by (rewrite length_take; lia).
    rewrite drop_drop, length_take. f_equal. lia.
Qed.

(** X17.  [copyFrom] does not compare sizes: the count comes from the
    destination alone.  When the storage behind [other.raw] cannot be read
    for that many bytes (it holds fewer than [size()] elements, or has been
    released, or [other.raw] is null), the transfer call is still made, with
    that count, and is an invalid access; nothing is written. *)
Theorem copyFrom_unreadable_source_faults w dst src :
  allocationType dst ≠ Empty → allocationType src ≠ Empty →
  read_bytes any_space (raw src) (MatrixType.copy_bytes dst) (mem w) = None →
  ∃ c,
    MatrixType.copyFrom dst src w = Fault InvalidAccess (trace w ++ [c]) ∧
    copy_endpoints c = Some (raw dst, raw src) ∧
    copy_count c = Some (MatrixType.copy_bytes dst).
Proof.
  intros Hkd Hks Hread. unfold MatrixType.copyFrom, memcpy, cudaMemcpy.
  destruct (allocationType dst), (allocationType src); try done;
    unfold mbind, M_bind, emit;
    (rewrite transfer_unreadable; [by eexists|by apply read_bytes_any_none]).
Qed.

(** X18.  Copies compose: among three buffers of the data model with
    equal [size()], after [a.copyFrom(b)] and then [c.copyFrom(a)] the
    elements of [c] are those [b] had at the start, all [rows * cols] of
    them. *)
Theorem copyFrom_twice_carries_source w a b c :
  valid w a → valid w b → valid w c →
  MatrixType.size a = MatrixType.size b → MatrixType.size c = MatrixType.size a →
  ∃ w1 w2 bs,
    MatrixType.copyFrom a b w = Done (a, w1) ∧
    MatrixType.copyFrom c a w1 = Done (c, w2) ∧
    contents b w = Some bs ∧ contents c w2 = Some bs ∧
    stored b w = Some bs ∧ stored c w2 = Some bs ∧
    Z.of_nat (length bs) = sizeofT * (row b * col b).
Proof.
  intros Ha Hb Hc Hab Hca.
  destruct (copyFrom_valid w a b Ha Hb Hab) as (w1 & bs & Hrun1 & Hcb & Hca1 & Hkeep & _).
  assert (valid w1 a) as Ha1 by (destruct Ha; split; [done|by apply Hkeep]).
  assert (valid w1 c) as Hc1 by (destruct Hc; split; [done|by apply Hkeep]).
  destruct (copyFrom_valid w1 c a Hc1 Ha1 Hca) as (w2 & bs' & Hrun2 & Hca1' & Hcc & _).
  rewrite Hca1 in Hca1'. injection Hca1' as <-.
  pose proof Hb as (Hextb & _). pose proof Hc as (Hextc & _).
  assert (stored b w = Some bs) as Hsb by (by rewrite stored_contents).
  exists w1, w2, bs. split_and!; try done.
  - by rewrite stored_contents.
  - by apply (stored_length b w).
Qed.

(** ** Life cycles *)

(** X19.  Allocation and release pair up by kind.  For extents in range,
    creating a host buffer and freeing it makes [new] then [delete[]] on
    the pointer [new] gave; creating a device buffer and freeing it makes
    [cudaMalloc] then [cudaFree] on the pointer [cudaMalloc] gave.  In both
    cases the blocks that were in the store are as before and the new block
    is released. *)
Theorem create_then_FreeMatrix cols rows w :
  0 ≤ cols ≤ INT_MAX → 0 ≤ rows ≤ INT_MAX → rows * cols ≤ INT_MAX →
  (∃ m w1 m' w2,
     CreateCPUMatrix cols rows w = Done (m, w1) ∧
     FreeMatrix m w1 = Done (m', w2) ∧
     trace w2 = trace w ++ [CallNew (sizeofT * (rows * cols)); CallDelete (raw m)] ∧
     mem w2 = mem w ++ [None]) ∧
  (∃ m w1 m' w2,
     CreateGPUMatrix cols rows w = Done (m, w1) ∧
     FreeMatrix m w1 = Done (m', w2) ∧
     trace w2 = trace w ++ [CallCudaMalloc (sizeofT * (rows * cols)); CallCudaFree (raw m)] ∧
     mem w2 = mem w ++ [None]).
Proof.
  intros Hc Hr Hp.
  assert (∀ (ms : list (option block)) x, <[length ms := None]> (ms ++ [x]) = ms ++ [None])
    as Hlast.
  { intros ms x. rewrite insert_app_r_alt by lia.
    by rewrite Nat.sub_diag. }
  split.
  - eexists _, _, _, _. split.
    { unfold CreateCPUMatrix, MatrixType.CreateCPU, new_array, int_mul.
      rewrite int_wrap_small by (unfold in_int, INT_MIN, INT_MAX in *; nia).
      destruct (decide (rows * cols < 0)) as [Hneg|_]; [nia|].
      unfold alloc. run. reflexivity. }
    split.
    { unfold FreeMatrix, delete_array, release. run.
      rewrite list_lookup_middle by done. simpl. reflexivity. }
    simpl. split; [by rewrite <- app_assoc|apply Hlast].
  - eexists _, _, _, _. split.
    { unfold CreateGPUMatrix, MatrixType.CreateGPU, cudaMalloc, alloc.
      rewrite alloc_bytes_exact by done.
      unfold pointer_object. run. reflexivity. }
    split.
    { unfold FreeMatrix, cudaFree, release. run.
      rewrite list_lookup_middle by done. simpl. reflexivity. }
    simpl. split; [by rewrite <- app_assoc|apply Hlast].
Qed.

(** X20.  A clone owns its storage: after [CreateCPUMatrix(other)] or
    [CreateGPUMatrix(other)] on a buffer of the data model, freeing the
    clone returns, and [other] is still a buffer of the data model with the
    elements it had. *)
Theorem FreeMatrix_of_clone_keeps_original w other :
  valid w other →
  ∃ bs,
    contents other w = Some bs ∧
    (∃ m w1 m' w2,
       CreateCPUMatrix_from other w = Done (m, w1) ∧
       FreeMatrix m w1 = Done (m', w2) ∧
       valid w2 other ∧ contents other w2 = Some bs) ∧
    (∃ m w1 m' w2,
       CreateGPUMatrix_from other w = Done (m, w1) ∧
       FreeMatrix m w1 = Done (m', w2) ∧
       valid w2 other ∧ contents other w2 = Some bs).
Proof.
  intros Hother.
  pose proof (valid_not_empty w other Hother) as Hne.
  assert (∀ create K sp,
            creates create K sp → kind_space K = Some sp →
            ∃ bs m w1 m' w2,
              (result ← create (MatrixType.cols other) (MatrixType.rows other);
               result ← MatrixType.copyFrom result other;
               mret result) w = Done (m, w1) ∧
              FreeMatrix m w1 = Done (m', w2) ∧
              contents other w = Some bs ∧
              valid w2 other ∧ contents other w2 = Some bs) as Hgen.
  { intros create K sp Hcreate HK.
    destruct (clone_is_deep_copy create K sp w other Hcreate HK Hother)
      as (m & w1 & bs & Hrun & Hk & _ & _ & Hm & Hcs & _ & Hkeep).
    destruct (Hkeep other Hother) as (Hother1 & Hraw & Hc1).
    destruct Hm as (Hextm & bm & blkm & Hrm & Hbm & Hkm & _).
    destruct (FreeMatrix_valid w1 m bm blkm Hextm Hrm Hbm Hkm) as (c & Hfree & _).
    exists bs. eexists m, w1, _, _. split; [exact Hrun|]. split; [exact Hfree|].
    split; [done|].
    destruct Hother1 as (Hexto & bo & blko & Hro & Hbo & Hko & Hlo).
    assert (bm ≠ bo) as Hnb by (intros ->; by rewrite Hro, Hrm in Hraw).
    split.
    - split; [done|]. exists bo, blko. simpl.
      split_and!; [done| |done..]. by rewrite list_lookup_insert_ne.
    - rewrite <- Hcs, <- Hc1. unfold contents. rewrite Hro. simpl mem.
      apply read_bytes_insert_ne. congruence. }
  destruct (Hgen MatrixType.CreateCPU CPU HostMem CreateCPU_creates eq_refl)
    as (bs & m & w1 & m' & w2 & Hrun & Hfree & Hcs & Hv & Hc).
  destruct (Hgen MatrixType.CreateGPU GPU DeviceMem CreateGPU_creates eq_refl)
    as (bs' & mg & wg1 & mg' & wg2 & Hrung & Hfreeg & Hcsg & Hvg & Hcg).
  rewrite Hcs in Hcsg. injection Hcsg as <-.
  exists bs. split; [done|]. split.
  - exists m, w1, m', w2. split_and!; try done.
    unfold CreateCPUMatrix_from. by destruct (decide (allocationType other = Empty)).
  - exists mg, wg1, mg', wg2. split_and!; try done.
    unfold CreateGPUMatrix_from. by destruct (decide (allocationType other = Empty)).
Qed.

End Properties.

(** * Closed instances, over the 4-byte element type *)

#[global] Existing Instance pod4.

(** C1, as the claim has it, fails: after [FreeMatrix] on a 3 x 2 host
    buffer the kind is [Empty], yet [size()] and [end() - begin()] are
    still 6. *)
Lemma FreeMatrix_size_stays :
  valid host_world host_3x2 ∧ allocationType host_3x2 ≠ Empty ∧
  ∃ b' w',
    FreeMatrix host_3x2 host_world = Done (b', w') ∧
    allocationType b' = Empty ∧
    MatrixType.size b' = 6 ∧ MatrixType.size b' ≠ 0 ∧
    ptr_diff (MatrixType.end_ b') (MatrixType.begin b') = Some 6.
Proof.
  split; [valid_by_computation|]. split; [done|].
  eexists _, _. split; [vm_compute; reflexivity|].
  split_and!; [reflexivity | reflexivity | by vm_compute | reflexivity].
Qed.

Lemma FreeMatrix_resets_kind_and_pointer_witness :
  ∃ b' w',
    FreeMatrix host_3x2 host_world = Done (b', w') ∧
    allocationType b' = Empty ∧ raw b' = nullptr ∧
    col b' = 3 ∧ row b' = 2 ∧
    MatrixType.size b' = MatrixType.size host_3x2 ∧
    ptr_diff (MatrixType.end_ b') (MatrixType.begin b') = Some (MatrixType.size host_3x2).
Proof.
  apply (FreeMatrix_resets_kind_and_pointer host_world host_3x2);
    [done | valid_by_computation].
Defined.

Lemma copyFrom_reproduces_source_witness :
  ∃ w',
    MatrixType.copyFrom device_3x2 host_3x2 mixed_world = Done (device_3x2, w') ∧
    stored device_3x2 mixed_world = Some (blank 24) ∧
    stored device_3x2 w' = Some six_elements ∧
    element device_3x2 4 w' = Some (bytes_of [4; 0; 0; 0]).
Proof.
  destruct (copyFrom_reproduces_source GPU CPU mixed_world device_3x2 host_3x2)
    as (w' & bs & Hrun & _ & _ & Hsrc & Hdst & _ & _ & Helem);
    [ repeat constructor | repeat constructor | reflexivity | reflexivity
    | valid_by_computation | valid_by_computation | reflexivity | ].
  assert (stored host_3x2 mixed_world = Some six_elements) as Hsix
    by (vm_compute; reflexivity).
  rewrite Hsix in Hsrc. injection Hsrc as <-.
  exists w'. split; [exact Hrun|]. split; [vm_compute; reflexivity|].
  split; [exact Hdst|].
  destruct (Helem 4) as [-> _]; [simpl; lia|]. vm_compute. reflexivity.
Defined.

Lemma device_round_trip_witness :
  ∃ d w1 h2 w2,
    CreateGPUMatrix_from host_3x2 host_world = Done (d, w1) ∧
    CreateCPUMatrix_from d w1 = Done (h2, w2) ∧
    allocationType d = GPU ∧ allocationType h2 = CPU ∧
    col h2 = 3 ∧ row h2 = 2 ∧
    stored d w1 = Some six_elements ∧
    stored h2 w2 = Some six_elements ∧
    element h2 4 w2 = Some (bytes_of [4; 0; 0; 0]).
Proof.
  destruct (device_round_trip host_world host_3x2)
    as (d & w1 & h2 & w2 & bs & Hrun1 & Hrun2 & Hkd & Hkh & Hcol & Hrow & _ & _
        & Hsrc & Hsd & Hsh2 & _ & _ & _ & _ & Helem);
    [reflexivity | valid_by_computation |].
  assert (stored host_3x2 host_world = Some six_elements) as Hsix
    by (vm_compute; reflexivity).
  rewrite Hsix in Hsrc. injection Hsrc as <-.
  exists d, w1, h2, w2. split_and!; try done.
  destruct (Helem 4) as [-> _]; [simpl; lia|]. vm_compute. reflexivity.
Defined.

Lemma clone_of_empty_except_managed_witness :
  allocationType empty_matrix = Empty ∧
  CreateCPUMatrix_from empty_matrix host_world = Done (empty_matrix, host_world) ∧
  CreateGPUMatrix_from empty_matrix host_world = Done (empty_matrix, host_world) ∧
  CreateManagedMatrix_from empty_matrix host_world = Fault IllFormed [] ∧
  raw empty_matrix = nullptr ∧ col empty_matrix = 0 ∧ row empty_matrix = 0 ∧
  allocationType empty_matrix = Empty.
Proof.
  split; [reflexivity|].
  apply (clone_of_empty_except_managed host_world empty_matrix). reflexivity.
Defined.

Lemma copyFrom_empty_is_noop_witness :
  allocationType empty_matrix = Empty ∧
  MatrixType.copyFrom host_3x2 empty_matrix host_world = Done (host_3x2, host_world) ∧
  calls (MatrixType.copyFrom host_3x2 empty_matrix host_world) = trace host_world.
Proof.
  split; [reflexivity|].
  apply (copyFrom_empty_is_noop host_world host_3x2 empty_matrix).
  right. reflexivity.
Defined.

Lemma copyFrom_keeps_members_witness :
  ∃ dst' w',
    MatrixType.copyFrom device_3x2 host_3x2 mixed_world = Done (dst', w') ∧
    allocationType dst' = GPU ∧ row dst' = 2 ∧ col dst' = 3 ∧
    raw dst' = Addr (Some 1%nat) 0.
Proof.
  eexists _, _. split; [vm_compute; reflexivity|].
  eapply (copyFrom_keeps_members mixed_world device_3x2 host_3x2).
  vm_compute. reflexivity.
Defined.

(** C8, as the claim has it, fails: when the runtime refuses the request
    and the uninitialised [data] holds a null pointer,
    [CreateGPUMatrix(3, 2)] returns a buffer of kind [GPU] whose [raw] is
    null. *)
Lemma CreateGPUMatrix_refused_breaks_invariant :
  ∃ m w',
    CreateGPUMatrix_on refuses nullptr 3 2 no_world = Done (m, w') ∧
    allocationType m = GPU ∧ raw m = nullptr ∧
    mem w' = [] ∧ trace w' = [CallCudaMalloc 24] ∧
    ¬ null_iff_empty m.
Proof.
  eexists _, _. split; [vm_compute; reflexivity|].
  split_and!; [reflexivity..|].
  intros [_ Hnull]. by specialize (Hnull eq_refl).
Qed.

Lemma null_iff_empty_invariant_witness :
  (∃ m w' m' w'',
     CreateGPUMatrix_on grants_all nullptr 3 2 no_world = Done (m, w') ∧
     raw m ≠ nullptr ∧ null_iff_empty m ∧
     FreeMatrix m w' = Done (m', w'') ∧ null_iff_empty m') ∧
  (∃ m w',
     CreateGPUMatrix_from_on grants_all nullptr host_3x2 host_world = Done (m, w') ∧
     null_iff_empty m).
Proof.
  destruct (@null_iff_empty_invariant pod4)
    as (_ & _ & Hgpu & _ & _ & Hclone & _ & _ & Hfree).
  split.
  - destruct (Hgpu grants_all nullptr 3 2 no_world) as (m & w' & Hrun & Hk & Hraw & Hm).
    set (m' := {| raw := nullptr; col := 3; row := 2; allocationType := Empty |}).
    set (w2 := {| mem := [None];
                  trace := [CallCudaMalloc 24; CallCudaFree (Addr (Some 0%nat) 0)] |}).
    assert (CreateGPUMatrix_on grants_all nullptr 3 2 no_world
            = Done ({| raw := Addr (Some 0%nat) 0; col := 3; row := 2;
                       allocationType := GPU |},
                    {| mem := [Some (fresh_block DeviceMem 24)];
                       trace := [CallCudaMalloc 24] |})) as Hcreate
      by (vm_compute; reflexivity).
    rewrite Hcreate in Hrun. injection Hrun as <- <-.
    assert (FreeMatrix {| raw := Addr (Some 0%nat) 0; col := 3; row := 2;
                          allocationType := GPU |}
              {| mem := [Some (fresh_block DeviceMem 24)];
                 trace := [CallCudaMalloc 24] |} = Done (m', w2)) as Hrelease
      by (vm_compute; reflexivity).
    eexists _, _, m', w2. split; [exact Hcreate|]. split; [exact Hraw|].
    split; [exact Hm|]. split; [exact Hrelease|].
    exact (Hfree _ _ m' w2 Hm Hrelease).
  - set (m := {| raw := Addr (Some 1%nat) 0; col := 3; row := 2;
                 allocationType := GPU |}).
    set (w' := {| mem := [ Some {| blk_space := HostMem; blk_bytes := six_elements |};
                           Some {| blk_space := DeviceMem; blk_bytes := six_elements |} ];
                  trace := [ CallCudaMalloc 24;
                             CallCudaMemcpy (Addr (Some 1%nat) 0) (Addr (Some 0%nat) 0) 24
                               cudaMemcpyHostToDevice ] |}).
    assert (CreateGPUMatrix_from_on grants_all nullptr host_3x2 host_world = Done (m, w'))
      as Hrun by (vm_compute; reflexivity).
    exists m, w'. split; [exact Hrun|].
    exact (Hclone grants_all nullptr host_3x2 host_world m w' Hrun eq_refl).
Defined.

Lemma operator_call_is_row_major_witness :
  0 ≤ 1 < MatrixType.cols host_3x2 ∧ 0 ≤ 1 < MatrixType.rows host_3x2 ∧
  MatrixType.operator_call host_3x2 1 1 = MatrixType.operator_index host_3x2 4 ∧
  MatrixType.load (MatrixType.operator_call host_3x2 1 1) host_world
  = Some (bytes_of [4; 0; 0; 0]).
Proof.
  assert (0 ≤ 1 < MatrixType.cols host_3x2) as Hc by (simpl; lia).
  assert (0 ≤ 1 < MatrixType.rows host_3x2) as Hr by (simpl; lia).
  split; [exact Hc|]. split; [exact Hr|].
  destruct (operator_call_is_row_major host_3x2 1 1 Hc Hr) as (Hlv & Hval & _).
  split; [exact Hlv|]. rewrite Hval. vm_compute. reflexivity.
Defined.

Lemma copyFrom_moves_destination_size_witness :
  MatrixType.size device_3x2 = 6 ∧ MatrixType.size host_4x2 = 8 ∧
  (∃ c,
     calls (MatrixType.copyFrom device_3x2 host_4x2 mixed_world)
     = trace mixed_world ++ [c] ∧
     copy_endpoints c = Some (raw device_3x2, raw host_4x2) ∧
     copy_count c = Some 24 ∧
     copied_elements c = Some 6) ∧
  ∃ w',
    MatrixType.copyFrom device_3x2 host_4x2 mixed_world = Done (device_3x2, w') ∧
    contents device_3x2 w' = Some six_elements.
Proof.
  split; [reflexivity|]. split; [reflexivity|].
  destruct (copyFrom_moves_destination_size mixed_world device_3x2 host_4x2)
    as ((c & Hcalls & Hends & Hcount & Helems) & Hrun); [done | done |].
  split.
  - exists c. split_and!; [done | done | done |].
    apply Helems. extents_by_computation.
  - destruct Hrun as (w' & bs & Hrun & Hread & Hcd);
      [valid_by_computation | backed_by_computation |].
    exists w'. split; [exact Hrun|].
    rewrite Hcd, <- Hread. vm_compute. reflexivity.
Defined.

(** ** Scenarios, evaluated *)

(** A 3 x 2 host matrix holding 0..5 comes back from the device with the
    same elements. *)
Example round_trip_3x2 :
  match (d ← CreateGPUMatrix_from host_3x2; CreateCPUMatrix_from d) host_world with
  | Done (h2, w2) =>
      contents h2 w2 = Some six_elements ∧
      element h2 4 w2 = Some (bytes_of [4; 0; 0; 0])
  | Fault _ _ => False
  end.
Proof. vm_compute. by split. Qed.

(** [CreateCPUMatrix(0, 0)]: kind [CPU], [size()] 0, a non-null [raw]. *)
Example CreateCPUMatrix_0_0 :
  match CreateCPUMatrix 0 0 no_world with
  | Done (m, _) =>
      allocationType m = CPU ∧ MatrixType.size m = 0 ∧ raw m ≠ nullptr
  | Fault _ _ => False
  end.
Proof. vm_compute. by split_and!. Qed.

(** [size()] is an [int] product: beyond [INT_MAX] it is not
    [rows * cols]. *)
Example size_wraps :
  MatrixType.size {| raw := nullptr; col := 65536; row := 65536;
                     allocationType := Empty |} = 0 ∧
  MatrixType.size {| raw := nullptr; col := 46341; row := 46341;
                     allocationType := Empty |} = -2147479015.
Proof. by vm_compute. Qed.

(** The siblings of [CreateManagedMatrix] at the same extents. *)
Example CreateGPUMatrix_3_2 :
  match CreateGPUMatrix 3 2 no_world with
  | Done (m, w) =>
      allocationType m = GPU ∧ MatrixType.size m = 6 ∧
      trace w = [CallCudaMalloc 24]
  | Fault _ _ => False
  end.
Proof. vm_compute. by split_and!. Qed.

(** ** Closed instances of the further properties *)

Lemma operator_call_in_bounds_and_injective_witness :
  is_Some (MatrixType.load (MatrixType.operator_call host_3x2 1 1) host_world) ∧
  (MatrixType.operator_call host_3x2 1 1 = MatrixType.operator_call host_3x2 2 0 →
   1 = 2 ∧ 1 = 0).
Proof.
  apply (operator_call_in_bounds_and_injective host_world host_3x2 1 1 2 0);
    [valid_by_computation | simpl; lia..].
Defined.

Lemma operator_index_is_operator_call_witness :
  0 ≤ 4 mod MatrixType.cols host_3x2 < MatrixType.cols host_3x2 ∧
  0 ≤ 4 / MatrixType.cols host_3x2 < MatrixType.rows host_3x2 ∧
  MatrixType.operator_index host_3x2 4
  = MatrixType.operator_call host_3x2 (4 mod MatrixType.cols host_3x2)
      (4 / MatrixType.cols host_3x2).
Proof.
  apply (operator_index_is_operator_call host_3x2 4);
    [extents_by_computation | by vm_compute].
Defined.

Lemma assign_through_operator_call_witness :
  (∃ w',
     assign HostSide (MatrixType.operator_call host_3x2 1 1) (bytes_of [9; 0; 0; 0])
       filled_world = Some w' ∧
     fetch HostSide (MatrixType.operator_index host_3x2 4) w'
     = Some (bytes_of [9; 0; 0; 0]) ∧
     fetch HostSide (MatrixType.operator_index host_3x2 3) w'
     = Some (bytes_of [3; 0; 0; 0]) ∧
     valid w' host_3x2) ∧
  assign HostSide (MatrixType.operator_call device_3x2 1 1) (bytes_of [9; 0; 0; 0])
    filled_world = None ∧
  fetch HostSide (MatrixType.operator_call device_3x2 1 1) filled_world = None.
Proof.
  split.
  - destruct (assign_through_operator_call HostSide HostMem filled_world host_3x2 1 1
                (bytes_of [9; 0; 0; 0])) as (Hok & _);
      [valid_by_computation | reflexivity | simpl; lia | simpl; lia | reflexivity |].
    destruct (Hok eq_refl) as (w' & Hassign & Hread & Hothers & Hvalid & _).
    exists w'. split; [exact Hassign|]. split; [exact Hread|]. split; [|exact Hvalid].
    destruct (Hothers 3) as [-> _]; [simpl; lia | simpl; lia |].
    vm_compute. reflexivity.
  - destruct (assign_through_operator_call HostSide DeviceMem filled_world device_3x2 1 1
                (bytes_of [9; 0; 0; 0])) as (_ & Hrefused);
      [valid_by_computation | reflexivity | simpl; lia | simpl; lia | reflexivity |].
    exact (Hrefused eq_refl).
Defined.

Lemma CreateCPUMatrix_allocates_witness :
  ∃ m w',
    CreateCPUMatrix 3 2 no_world = Done (m, w') ∧
    allocationType m = CPU ∧ MatrixType.size m = 6 ∧ valid w' m ∧
    trace w' = [CallNew 24].
Proof.
  destruct (CreateCPUMatrix_allocates 3 2 no_world)
    as (m & w' & Hrun & Hk & _ & _ & Htrace & Hsize & Hvalid & _);
    [unfold INT_MAX; lia..|].
  by exists m, w'.
Defined.

Lemma CreateGPUMatrix_allocates_witness :
  ∃ m w',
    CreateGPUMatrix 3 2 no_world = Done (m, w') ∧
    allocationType m = GPU ∧ MatrixType.size m = 6 ∧ valid w' m ∧
    trace w' = [CallCudaMalloc 24].
Proof.
  destruct (CreateGPUMatrix_allocates 3 2 no_world)
    as (m & w' & Hrun & Hk & _ & _ & Htrace & Hsize & Hvalid & _);
    [unfold INT_MAX; lia..|].
  by exists m, w'.
Defined.

Lemma CreateCPUMatrix_storage_is_size_witness :
  CreateCPUMatrix 46341 46341 no_world = Fault BadArrayNewLength [] ∧
  ∃ m w' blk,
    CreateCPUMatrix 3 2 no_world = Done (m, w') ∧
    mem w' !! 0%nat = Some (Some blk) ∧
    Z.of_nat (length (blk_bytes blk)) = 4 * MatrixType.size m.
Proof.
  split.
  - apply (CreateCPUMatrix_storage_is_size 46341 46341 no_world). by vm_compute.
  - destruct (CreateCPUMatrix_storage_is_size 3 2 no_world) as (_ & Hok).
    destruct Hok as (m & w' & blk & Hrun & _ & _ & Hblk & Hlen); [by vm_compute|].
    by exists m, w', blk.
Defined.

Lemma CreateGPUMatrix_size_wraps_witness :
  ∃ m w' blk,
    CreateGPUMatrix 65536 65536 no_world = Done (m, w') ∧
    mem w' !! 0%nat = Some (Some blk) ∧
    Z.of_nat (length (blk_bytes blk)) = 4 * (65536 * 65536) ∧
    MatrixType.size m < 65536 * 65536.
Proof.
  destruct (CreateGPUMatrix_size_wraps 65536 65536 no_world)
    as (m & w' & blk & Hrun & _ & Hblk & Hlen & _ & Hlt);
    [unfold INT_MAX; lia | unfold INT_MAX; lia | unfold INT_MAX; lia | simpl; lia |].
  by exists m, w', blk.
Defined.

Lemma CreateCPUMatrix_from_is_deep_copy_witness :
  ∃ m w',
    CreateCPUMatrix_from device_3x2 filled_world = Done (m, w') ∧
    allocationType m = CPU ∧ valid w' m ∧
    stored device_3x2 filled_world = Some device_six ∧
    stored m w' = Some device_six ∧
    element m 4 w' = Some (bytes_of [14; 0; 0; 0]) ∧
    contents host_3x2 w' = Some six_elements.
Proof.
  destruct (CreateCPUMatrix_from_is_deep_copy filled_world device_3x2)
    as (m & w' & bs & Hrun & Hk & _ & _ & Hvalid & _ & Hsrc & Hm & _ & Hcm & Hkeep);
    [valid_by_computation|].
  assert (stored device_3x2 filled_world = Some device_six) as Hdev
    by (vm_compute; reflexivity).
  rewrite Hdev in Hsrc. injection Hsrc as <-.
  exists m, w'. split_and!; try done.
  - assert (0 ≤ 4 < MatrixType.size m) as Hi.
    { destruct Hvalid as (Hext & _). rewrite (size_exact m Hext).
      apply stored_length in Hm. change (Z.of_nat (length device_six)) with 24 in Hm.
      change (@sizeofT pod4) with 4 in Hm. lia. }
    rewrite (element_of_contents m w' device_six 4 Hcm Hi). vm_compute. reflexivity.
  - destruct (Hkeep host_3x2) as (_ & _ & ->); [valid_by_computation|].
    vm_compute. reflexivity.
Defined.

Lemma CreateGPUMatrix_from_is_deep_copy_witness :
  ∃ m w',
    CreateGPUMatrix_from managed_3x2 filled_world = Done (m, w') ∧
    allocationType m = GPU ∧ valid w' m ∧
    stored managed_3x2 filled_world = Some managed_six ∧
    stored m w' = Some managed_six ∧
    element m 4 w' = Some (bytes_of [24; 0; 0; 0]) ∧
    contents host_3x2 w' = Some six_elements.
Proof.
  destruct (CreateGPUMatrix_from_is_deep_copy filled_world managed_3x2)
    as (m & w' & bs & Hrun & Hk & _ & _ & Hvalid & _ & Hsrc & Hm & _ & Hcm & Hkeep);
    [valid_by_computation|].
  assert (stored managed_3x2 filled_world = Some managed_six) as Hman
    by (vm_compute; reflexivity).
  rewrite Hman in Hsrc. injection Hsrc as <-.
  exists m, w'. split_and!; try done.
  - assert (0 ≤ 4 < MatrixType.size m) as Hi.
    { destruct Hvalid as (Hext & _). rewrite (size_exact m Hext).
      apply stored_length in Hm. change (Z.of_nat (length managed_six)) with 24 in Hm.
      change (@sizeofT pod4) with 4 in Hm. lia. }
    rewrite (element_of_contents m w' managed_six 4 Hcm Hi). vm_compute. reflexivity.
  - destruct (Hkeep host_3x2) as (_ & _ & ->); [valid_by_computation|].
    vm_compute. reflexivity.
Defined.

Lemma CreateManagedMatrix_from_yields_nothing_witness :
  CreateManagedMatrix_from host_3x2 host_world = Fault IllFormed [].
Proof.
  apply (CreateManagedMatrix_from_yields_nothing host_world host_3x2). done.
Defined.

Lemma FreeMatrix_again_is_noop_witness :
  ∃ mat' w',
    FreeMatrix host_3x2 host_world = Done (mat', w') ∧
    FreeMatrix mat' w' = Done (mat', w').
Proof.
  set (mat' := {| raw := nullptr; col := 3; row := 2; allocationType := Empty |}).
  set (w' := {| mem := [None]; trace := [CallDelete (Addr (Some 0%nat) 0)] |}).
  assert (FreeMatrix host_3x2 host_world = Done (mat', w')) as Hrun
    by (vm_compute; reflexivity).
  exists mat', w'. split; [exact Hrun|].
  exact (proj1 (FreeMatrix_again_is_noop host_3x2 host_world mat' w' Hrun)).
Defined.

Lemma FreeMatrix_releases_own_storage_witness :
  ∃ b' w' c,
    FreeMatrix device_3x2 mixed_world = Done (b', w') ∧
    mem w' !! 1%nat = Some None ∧
    trace w' = trace mixed_world ++ [c] ∧
    (c = CallDelete (raw device_3x2) ∨ c = CallCudaFree (raw device_3x2)) ∧
    valid w' host_3x2 ∧
    contents host_3x2 w' = contents host_3x2 mixed_world.
Proof.
  destruct (FreeMatrix_releases_own_storage mixed_world device_3x2)
    as (b' & w' & blk_id & blk & c & Hrun & Hraw & _ & Hdead & Htrace & Hc & Hframe);
    [valid_by_computation|].
  injection Hraw as <-.
  exists b', w', c. split_and!; [done..| | |].
  - destruct Hc as [[-> _]|[-> _]]; [by left|by right].
  - apply Hframe; [valid_by_computation|done].
  - apply Hframe; [valid_by_computation|done].
Defined.

Lemma stale_copy_after_FreeMatrix_witness :
  ∃ b' w',
    FreeMatrix host_3x2 host_world = Done (b', w') ∧
    contents host_3x2 w' = None ∧
    (∃ made, FreeMatrix host_3x2 w' = Fault InvalidAccess made).
Proof.
  set (b' := {| raw := nullptr; col := 3; row := 2; allocationType := Empty |}).
  set (w' := {| mem := [None]; trace := [CallDelete (Addr (Some 0%nat) 0)] |}).
  assert (FreeMatrix host_3x2 host_world = Done (b', w')) as Hrun
    by (vm_compute; reflexivity).
  destruct (stale_copy_after_FreeMatrix host_world host_3x2 b' w')
    as (Hgone & _ & Hagain & _); [valid_by_computation | exact Hrun |].
  by exists b', w'.
Defined.

Lemma copyFrom_touches_only_destination_witness :
  ∃ w',
    MatrixType.copyFrom device_3x2 host_4x2 mixed_world = Done (device_3x2, w') ∧
    valid w' device_3x2 ∧
    contents host_4x2 w' = contents host_4x2 mixed_world ∧
    contents managed_3x2 w' = contents managed_3x2 mixed_world.
Proof.
  destruct (copyFrom_touches_only_destination mixed_world device_3x2 host_4x2)
    as (w' & Hrun & Hvalid & Hframe & _);
    [valid_by_computation | backed_by_computation |].
  exists w'. split_and!; [done..| |].
  - apply Hframe; [valid_by_computation|done].
  - apply Hframe; [valid_by_computation|done].
Defined.

Lemma copyFrom_unreadable_source_faults_witness :
  MatrixType.size host_4x2 = 8 ∧ MatrixType.size host_3x2 = 6 ∧
  ∃ c,
    MatrixType.copyFrom host_4x2 host_3x2 mixed_world = Fault InvalidAccess [c] ∧
    copy_count c = Some 32.
Proof.
  split; [reflexivity|]. split; [reflexivity|].
  destruct (copyFrom_unreadable_source_faults mixed_world host_4x2 host_3x2)
    as (c & Hrun & _ & Hcount); [done | done | by vm_compute |].
  by exists c.
Defined.

Lemma copyFrom_twice_carries_source_witness :
  ∃ w1 w2,
    MatrixType.copyFrom device_3x2 host_3x2 mixed_world = Done (device_3x2, w1) ∧
    MatrixType.copyFrom managed_3x2 device_3x2 w1 = Done (managed_3x2, w2) ∧
    contents managed_3x2 w2 = contents host_3x2 mixed_world ∧
    stored managed_3x2 mixed_world = Some (blank 24) ∧
    stored managed_3x2 w2 = Some six_elements.
Proof.
  destruct (copyFrom_twice_carries_source mixed_world device_3x2 host_3x2 managed_3x2)
    as (w1 & w2 & bs & Hrun1 & Hrun2 & Hb & Hc & Hsb & Hsc & _);
    [valid_by_computation | valid_by_computation | valid_by_computation
    | reflexivity | reflexivity |].
  assert (stored host_3x2 mixed_world = Some six_elements) as Hsix
    by (vm_compute; reflexivity).
  exists w1, w2. split_and!; [done..|by rewrite Hb, Hc|vm_compute; reflexivity|].
  rewrite Hsix in Hsb. by injection Hsb as <-.
Defined.

Lemma create_then_FreeMatrix_witness :
  (∃ m w1 m' w2,
     CreateCPUMatrix 3 2 no_world = Done (m, w1) ∧
     FreeMatrix m w1 = Done (m', w2) ∧
     trace w2 = [CallNew 24; CallDelete (raw m)] ∧ mem w2 = [None]) ∧
  (∃ m w1 m' w2,
     CreateGPUMatrix 3 2 no_world = Done (m, w1) ∧
     FreeMatrix m w1 = Done (m', w2) ∧
     trace w2 = [CallCudaMalloc 24; CallCudaFree (raw m)] ∧ mem w2 = [None]).
Proof.
  destruct (create_then_FreeMatrix 3 2 no_world) as [Hcpu Hgpu];
    [unfold INT_MAX; lia..|].
  split; [exact Hcpu|exact Hgpu].
Defined.

Lemma FreeMatrix_of_clone_keeps_original_witness :
  ∃ bs,
    contents host_3x2 host_world = Some bs ∧
    (∃ m w1 m' w2,
       CreateCPUMatrix_from host_3x2 host_world = Done (m, w1) ∧
       FreeMatrix m w1 = Done (m', w2) ∧
       valid w2 host_3x2 ∧ contents host_3x2 w2 = Some bs) ∧
    (∃ m w1 m' w2,
       CreateGPUMatrix_from host_3x2 host_world = Done (m, w1) ∧
       FreeMatrix m w1 = Done (m', w2) ∧
       valid w2 host_3x2 ∧ contents host_3x2 w2 = Some bs).
Proof.
  apply (FreeMatrix_of_clone_keeps_original host_world host_3x2).
  valid_by_computation.
Defined.
